(** * Planning poker server: rooms, votes and broadcasts

    A shallow embedding of [server.py].  The server keeps a dictionary of
    [Room] objects; each websocket handler joins one room, reacts to the
    frames of its connection and leaves the room when its stream ends.

    Python objects that are shared are modelled with their sharing: [Room]
    objects live in a store and are reached through references, both from
    the dictionary [self.rooms] and from the local variable [room] of every
    running handler; the outgoing payload of a broadcast holds the votes
    dictionary of the room, not a copy of it.

    The segments of a handler between two [await]s on its own stream (the
    opening of a connection, the treatment of one frame, the [finally]
    block) are run one after the other, never interleaved. *)

From stdpp Require Import gmap strings list fin_maps.

#[local] Set Warnings "-clear-no-such-hyp".

Open Scope string_scope.

(** ** Values *)

(** What [json.loads] can return, and hence what a vote can hold. *)
#[warnings="-register-all"]
Inductive pyval :=
| PNone
| PBool (b : bool)
| PInt (z : Z)
| PFloat (lit : string)
| PStr (s : string)
| PList (l : list pyval)
| PDict (d : gmap string pyval).

(** [v == s] for a string literal [s]: only a [str] equals a [str]. *)
Definition py_eq_str (v : pyval) (s : string) : bool :=
  match v with
  | PStr t => bool_decide (t = s)
  | _ => false
  end.

(** [data.get(key)]: [dict.get] gives [None] for a missing key; any other
    value of [json.loads] has no attribute [get] and the call raises
    [AttributeError], rendered as [None] of the option type. *)
Definition py_get (data : pyval) (key : string) : option pyval :=
  match data with
  | PDict d => Some (default PNone (d !! key))
  | _ => None
  end.

(** [not x] for the result of [request.query.get]: a missing parameter and
    the empty string are both false in a condition. *)
Definition py_not (x : option string) : bool :=
  match x with
  | None => true
  | Some s => bool_decide (s = "")
  end.

(** ** Connections *)

(** A [web.WebSocketResponse]: the identity of the object, and the header
    [client-id] that the handler writes right after creating it. *)
Record WS := { ws_id : nat; client_id : string }.

Global Instance WS_eq_dec : EqDecision WS.
Proof. solve_decision. Defined.

Global Instance WS_countable : Countable WS.
Proof.
  apply (inj_countable' (λ w, (ws_id w, client_id w))
                        (λ p, {| ws_id := p.1; client_id := p.2 |})).
  by intros [].
Defined.

(** ** Rooms *)

Record Room := {
  clients : gset WS;
  votes : gmap string pyval;
  revealed : bool
}.

(** [Room.__init__] *)
Definition Room_init : Room :=
  {| clients := ∅; votes := ∅; revealed := false |}.

Definition add_client (ws : WS) (self : Room) : Room :=
  {| clients := {[ws]} ∪ clients self;
     votes := votes self;
     revealed := revealed self |}.

(** One turn of the loop of [remove_client] over [list(self.votes.items())]. *)
Definition pop_if_owner (ws : WS) (vs : gmap string pyval)
    (item : string * pyval) : gmap string pyval :=
  if decide (item.1 = client_id ws) then delete item.1 vs else vs.

Definition remove_client (ws : WS) (self : Room) : Room :=
  {| clients := clients self ∖ {[ws]};
     votes := foldl (pop_if_owner ws) (votes self) (map_to_list (votes self));
     revealed := revealed self |}.

Definition reset (self : Room) : Room :=
  {| clients := clients self; votes := ∅; revealed := false |}.

(** The three mutations that [websocket_handler] performs in line, before
    it broadcasts. *)

(** [room.votes[user] = value; if room.revealed: room.revealed = False] *)
Definition submit_vote (user : string) (value : pyval) (room : Room) : Room :=
  let room1 := {| clients := clients room;
                  votes := <[user := value]> (votes room);
                  revealed := revealed room |} in
  if revealed room1
  then {| clients := clients room1; votes := votes room1; revealed := false |}
  else room1.

(** [room.revealed = True] *)
Definition reveal (room : Room) : Room :=
  {| clients := clients room; votes := votes room; revealed := true |}.

(** ** Outgoing frames *)

(** The JSON object built by [send_room_state] and [broadcast_room_state],
    as it is serialised when [send_json] runs. *)
Record payload := {
  p_type : string;
  p_votes : gmap string pyval;
  p_revealed : bool
}.

(** What leaves the server. *)
Inductive output :=
| Response (status : nat) (text : string)  (* [web.Response], no websocket *)
| SendJson (ws : WS) (p : payload).        (* a frame delivered on [ws] *)

(** [send_room_state]: the payload is written to [ws] only;
    [raises] tells whether [ws.send_json] raises [ConnectionResetError],
    which is swallowed. *)
Definition send_room_state (raises : bool) (room : Room) (ws : WS)
    : list output :=
  let p := {| p_type := "state";
              p_votes := votes room;
              p_revealed := revealed room |} in
  if raises then [] else [SendJson ws p].

(** The loop of [broadcast_room_state] over the snapshot [list(room.clients)].
    The dictionary [payload] was built before the loop: its entry
    ["revealed"] is the boolean read at that time ([shown]), its entry
    ["votes"] is the dictionary [room.votes] itself, so each [send_json]
    serialises the votes of the room as they are when it runs.
    [raises ws] tells whether [ws.send_json] raises. *)
Fixpoint broadcast_loop (raises : WS → bool) (shown : bool)
    (snapshot : list WS) (room : Room) : Room * list output :=
  match snapshot with
  | [] => (room, [])
  | ws :: rest =>
      if raises ws then
        broadcast_loop raises shown rest (remove_client ws room)
      else
        let p := {| p_type := "state";
                    p_votes := votes room;
                    p_revealed := shown |} in
        let '(room', out) := broadcast_loop raises shown rest room in
        (room', SendJson ws p :: out)
  end.

(** [broadcast_room_state]: [snapshot] is [list(room.clients)], the members
    in the order in which Python iterates the set. *)
Definition broadcast_room_state (raises : WS → bool) (snapshot : list WS)
    (room : Room) : Room * list output :=
  broadcast_loop raises (revealed room) snapshot room.

(** The order of iteration of a set is not fixed by the language: a
    snapshot is any enumeration of the members without repetition. *)
Definition snapshot_of (room : Room) (snapshot : list WS) : Prop :=
  snapshot ≡ₚ elements (clients room).

(** ** Incoming frames *)

(** The outcome of [json.loads(msg.data)] on a text frame. *)
Inductive json_loads :=
| JSONDecodeError
| Loaded (data : pyval).

(** A message of the stream [async for msg in ws], by [msg.type]. *)
Inductive WSMessage :=
| TEXT (data : json_loads)
| ERROR
| BINARY.

(** The body of the loop of [websocket_handler] for one message, on the
    room the handler holds.  [Some (room', out)]: the loop goes on with the
    room as mutated and [out] sent; [None]: [data.get] raised
    [AttributeError], which no [except] clause of the handler catches. *)
Definition websocket_handler_body (user : string) (raises : WS → bool)
    (snapshot : list WS) (msg : WSMessage) (room : Room)
    : option (Room * list output) :=
  match msg with
  | TEXT JSONDecodeError => Some (room, [])
  | TEXT (Loaded data) =>
      action ← py_get data "type";
      if py_eq_str action "vote" then
        value ← py_get data "value";
        Some (broadcast_room_state raises snapshot
                (submit_vote user value room))
      else if py_eq_str action "reveal" then
        Some (broadcast_room_state raises snapshot (reveal room))
      else if py_eq_str action "reset" then
        Some (broadcast_room_state raises snapshot (reset room))
      else Some (room, [])
  | ERROR => Some (room, [])  (* a line is printed *)
  | BINARY => Some (room, [])
  end.

(** ** The server *)

(** The local variables of a running [websocket_handler]; [h_room] is the
    reference to the [Room] object it obtained when it joined. *)
Record Handler := {
  h_room_id : string;
  h_user : string;
  h_ws : WS;
  h_room : nat
}.

Record PlanningPokerServer := {
  store : gmap nat Room;        (* the [Room] objects, by identity *)
  rooms : gmap string nat;      (* [self.rooms] *)
  handlers : gmap nat Handler;  (* the running handlers, by [ws_id] *)
  next_ws : nat;                (* identity of the next websocket object *)
  next_room : nat               (* identity of the next [Room] object *)
}.

(** [PlanningPokerServer.__init__] *)
Definition server_init : PlanningPokerServer :=
  {| store := ∅; rooms := ∅; handlers := ∅; next_ws := 0; next_room := 0 |}.

(** [self.rooms.setdefault(room_id, Room())] *)
Definition setdefault (room_id : string) (self : PlanningPokerServer)
    : nat * PlanningPokerServer :=
  match rooms self !! room_id with
  | Some l => (l, self)
  | None =>
      (next_room self,
       {| store := <[next_room self := Room_init]> (store self);
          rooms := <[room_id := next_room self]> (rooms self);
          handlers := handlers self;
          next_ws := next_ws self;
          next_room := S (next_room self) |})
  end.

(** In-place mutation of the [Room] object at [l]. *)
Definition write_room (l : nat) (room : Room) (self : PlanningPokerServer)
    : PlanningPokerServer :=
  {| store := <[l := room]> (store self);
     rooms := rooms self;
     handlers := handlers self;
     next_ws := next_ws self;
     next_room := next_room self |}.

(** [websocket_handler] up to its loop: the check of the query
    parameters, the new websocket, the join and the first state. *)
Definition websocket_handler_open (room_id user : option string) (raises : bool)
    (self : PlanningPokerServer) : PlanningPokerServer * list output :=
  if py_not room_id || py_not user then
    (self, [Response 400 "Missing roomId or user in query params"])
  else
    let room_id := default "" room_id in
    let user := default "" user in
    let ws := {| ws_id := next_ws self; client_id := user |} in
    let '(l, self1) := setdefault room_id self in
    match store self1 !! l with
    | Some room0 =>
        let room := add_client ws room0 in
        ({| store := <[l := room]> (store self1);
            rooms := rooms self1;
            handlers :=
              <[ws_id ws := {| h_room_id := room_id; h_user := user;
                               h_ws := ws; h_room := l |}]> (handlers self1);
            next_ws := S (next_ws self1);
            next_room := next_room self1 |},
         send_room_state raises room ws)
    | None => (self, [])  (* no object at [l]: excluded by [consistent] *)
    end.

(** The [finally] block of [websocket_handler]; the handler then returns. *)
Definition websocket_handler_finally (h : Handler) (self : PlanningPokerServer)
    : PlanningPokerServer :=
  match store self !! h_room h with
  | Some room0 =>
      let room := remove_client (h_ws h) room0 in
      {| store := <[h_room h := room]> (store self);
         rooms := if decide (clients room = ∅)
                  then delete (h_room_id h) (rooms self)
                  else rooms self;
         handlers := delete (ws_id (h_ws h)) (handlers self);
         next_ws := next_ws self;
         next_room := next_room self |}
  | None => self  (* no object at [h_room h]: excluded by [consistent] *)
  end.

(** One message of the stream of the handler [h]. *)
Definition websocket_handler_message (h : Handler) (msg : WSMessage)
    (snapshot : list WS) (raises : WS → bool) (self : PlanningPokerServer)
    : PlanningPokerServer * list output :=
  match store self !! h_room h with
  | Some room0 =>
      match websocket_handler_body (h_user h) raises snapshot msg room0 with
      | Some (room, out) => (write_room (h_room h) room self, out)
      | None => (websocket_handler_finally h self, [])
      end
  | None => (self, [])  (* no object at [h_room h]: excluded by [consistent] *)
  end.

(** What happens to the server: a request on [/ws], a message on the
    stream of a running handler, the end of such a stream (the peer closed
    or the transport failed).  A message carries the choices that the
    program leaves to its environment: the order in which the set of
    members is iterated and the sends that raise. *)
Inductive event :=
| Open (room_id user : option string) (raises : bool)
| Frame (ws : nat) (msg : WSMessage) (snapshot : list WS) (raises : WS → bool)
| Close (ws : nat).

Definition step (e : event) (self : PlanningPokerServer)
    : PlanningPokerServer * list output :=
  match e with
  | Open room_id user raises => websocket_handler_open room_id user raises self
  | Frame w msg snapshot raises =>
      match handlers self !! w with
      | Some h => websocket_handler_message h msg snapshot raises self
      | None => (self, [])
      end
  | Close w =>
      match handlers self !! w with
      | Some h => (websocket_handler_finally h self, [])
      | None => (self, [])
      end
  end.

(** An event can happen when its handler runs and its snapshot enumerates
    the members of the handler's room. *)
Definition enabled (e : event) (self : PlanningPokerServer) : Prop :=
  match e with
  | Open _ _ _ => True
  | Frame w _ snapshot _ =>
      ∃ h room, handlers self !! w = Some h ∧
                store self !! h_room h = Some room ∧
                snapshot_of room snapshot
  | Close w => is_Some (handlers self !! w)
  end.

Fixpoint run (evs : list event) (self : PlanningPokerServer)
    : PlanningPokerServer * list output :=
  match evs with
  | [] => (self, [])
  | e :: evs' =>
      let '(self1, out1) := step e self in
      let '(self2, out2) := run evs' self1 in
      (self2, (out1 ++ out2)%list)
  end.

Inductive reachable : PlanningPokerServer → Prop :=
| reachable_init : reachable server_init
| reachable_step e self :
    reachable self → enabled e self → reachable (step e self).1.

(** ** Notions used in the statements *)

(** The claim on a vote after a reveal words the two assignments in the
    other order: hide first, then record.  This is that order, to be
    compared with [submit_vote]. *)
Definition submit_vote_hide_first (user : string) (value : pyval)
    (room : Room) : Room :=
  let room1 := if revealed room
               then {| clients := clients room; votes := votes room;
                       revealed := false |}
               else room in
  {| clients := clients room1;
     votes := <[user := value]> (votes room1);
     revealed := revealed room1 |}.

(** The members whose send raises, in the order of the snapshot. *)
Definition evicted (raises : WS → bool) (snapshot : list WS) : list WS :=
  filter (λ ws, Is_true (raises ws)) snapshot.

(** ** Runs *)

(** Every event of the run can happen when its turn comes. *)
Fixpoint run_enabled (evs : list event) (self : PlanningPokerServer) : Prop :=
  match evs with
  | [] => True
  | e :: evs' => enabled e self ∧ run_enabled evs' (step e self).1
  end.

(** What holds of the references in every reachable state: the dictionary
    [self.rooms] and the handlers point to [Room] objects of the store, a
    handler is stored under the identity of its websocket, whose header is
    the handler's user, and the two counters are above what is in use. *)
Record consistent (self : PlanningPokerServer) : Prop := {
  consistent_rooms :
    ∀ room_id l, rooms self !! room_id = Some l → is_Some (store self !! l);
  consistent_handlers :
    ∀ w h, handlers self !! w = Some h →
           ws_id (h_ws h) = w ∧ client_id (h_ws h) = h_user h ∧
           is_Some (store self !! h_room h);
  consistent_next_room :
    ∀ l, is_Some (store self !! l) → l < next_room self;
  consistent_next_ws :
    ∀ w, is_Some (handlers self !! w) → w < next_ws self
}.

(** The frame asks for a vote: [action == "vote"] holds in the handler. *)
Definition is_vote (msg : WSMessage) : bool :=
  match msg with
  | TEXT (Loaded data) =>
      match py_get data "type" with
      | Some action => py_eq_str action "vote"
      | None => false
      end
  | _ => false
  end.

(** The event is a vote under the name [user] on the [Room] object [l]. *)
Definition votes_as (user : string) (l : nat) (self : PlanningPokerServer)
    (e : event) : Prop :=
  match e with
  | Frame w msg _ _ =>
      ∃ h, handlers self !! w = Some h ∧ h_room h = l ∧ h_user h = user ∧
           is_vote msg = true
  | _ => False
  end.

Fixpoint no_vote_as (user : string) (l : nat) (evs : list event)
    (self : PlanningPokerServer) : Prop :=
  match evs with
  | [] => True
  | e :: evs' =>
      ¬ votes_as user l self e ∧ no_vote_as user l evs' (step e self).1
  end.

(** The [Room] object whose state the event sends: the room of the handler
    for a frame, the room that is joined for a request. *)
Definition emitter (self : PlanningPokerServer) (e : event) : option nat :=
  match e with
  | Open room_id user _ =>
      if py_not room_id || py_not user then None
      else Some (setdefault (default "" room_id) self).1
  | Frame w _ _ _ => h_room <$> handlers self !! w
  | Close _ => None
  end.

(** The [Room] object [l] holds no vote under the name [user]. *)
Definition no_vote_of (user : string) (l : nat) (self : PlanningPokerServer)
    : Prop :=
  ∀ room, store self !! l = Some room → votes room !! user = None.

(** The outputs of a run that come from the [Room] object [l]. *)
Fixpoint frames_of (l : nat) (evs : list event) (self : PlanningPokerServer)
    : list output :=
  match evs with
  | [] => []
  | e :: evs' =>
      ((if decide (emitter self e = Some l) then (step e self).2 else [])
       ++ frames_of l evs' (step e self).1)%list
  end.

(** ** The registry *)

(** A room is in [self.rooms] exactly when it has a member. *)
Definition registry_exact (self : PlanningPokerServer) : Prop :=
  (∀ room_id l, rooms self !! room_id = Some l →
     ∃ room, store self !! l = Some room ∧ clients room ≠ ∅) ∧
  (∀ l room, store self !! l = Some room → clients room ≠ ∅ →
     ∃ room_id, rooms self !! room_id = Some l).

(** No send of the event raises. *)
Definition all_delivered (e : event) : Prop :=
  match e with
  | Frame _ _ snapshot raises => ∀ ws, ws ∈ snapshot → raises ws = false
  | _ => True
  end.

(** The states reached while every send of every broadcast succeeds. *)
Inductive reachable_delivering : PlanningPokerServer → Prop :=
| delivering_init : reachable_delivering server_init
| delivering_step e self :
    reachable_delivering self → enabled e self → all_delivered e →
    reachable_delivering (step e self).1.

(** How handlers, members and [self.rooms] are tied together as long as no
    broadcast has removed a member: a running handler is a member of the
    room it holds, which is the room under its identifier; a member has a
    running handler; a room in [self.rooms] has a member; two identifiers
    never share a room. *)
Record linked (self : PlanningPokerServer) : Prop := {
  linked_handler :
    ∀ w h, handlers self !! w = Some h →
           ws_id (h_ws h) = w ∧
           rooms self !! h_room_id h = Some (h_room h) ∧
           ∃ room, store self !! h_room h = Some room ∧ h_ws h ∈ clients room;
  linked_member :
    ∀ l room ws, store self !! l = Some room → ws ∈ clients room →
                 ∃ h, handlers self !! ws_id ws = Some h ∧
                      h_ws h = ws ∧ h_room h = l;
  linked_rooms :
    ∀ room_id l, rooms self !! room_id = Some l →
                 ∃ room, store self !! l = Some room ∧ clients room ≠ ∅;
  linked_inj :
    ∀ r1 r2 l, rooms self !! r1 = Some l → rooms self !! r2 = Some l → r1 = r2;
  linked_next_room :
    ∀ l, is_Some (store self !! l) → l < next_room self;
  linked_next_ws :
    ∀ w, is_Some (handlers self !! w) → w < next_ws self
}.

(** ** Notions used in the further properties *)


(** The connection an output is written to, if it is a frame. *)
Definition recipient (o : output) : option WS :=
  match o with
  | SendJson ws _ => Some ws
  | Response _ _ => None
  end.

(** The members of a snapshot whose send does not raise. *)
Definition served (raises : WS → bool) (snapshot : list WS) : list WS :=
  filter (λ ws, ¬ Is_true (raises ws)) snapshot.

(** The [Room] object that the code run by an event works on: the room that
    a request joins, the room held by the handler of a frame or of a
    stream that ends. *)
Definition room_of_event (self : PlanningPokerServer) (e : event)
    : option nat :=
  match e with
  | Open room_id user _ =>
      if py_not room_id || py_not user then None
      else Some (setdefault (default "" room_id) self).1
  | Frame w _ _ _ => h_room <$> handlers self !! w
  | Close w => h_room <$> handlers self !! w
  end.

(** Every member of a room is the websocket of a running handler that
    holds that room. *)
Record membership (self : PlanningPokerServer) : Prop := {
  membership_handler :
    ∀ w h, handlers self !! w = Some h → ws_id (h_ws h) = w;
  membership_member :
    ∀ l room ws, store self !! l = Some room → ws ∈ clients room →
                 ∃ h, handlers self !! ws_id ws = Some h ∧
                      h_ws h = ws ∧ h_room h = l;
  membership_next_ws :
    ∀ w, is_Some (handlers self !! w) → w < next_ws self
}.

(** ** Scenarios

    Connections, frames and rooms used to run the definitions. *)

Definition alice_ws : WS := {| ws_id := 0; client_id := "alice" |}.
Definition bob_ws : WS := {| ws_id := 1; client_id := "bob" |}.
Definition carol_ws : WS := {| ws_id := 2; client_id := "carol" |}.

(** [{"type": "vote", "value": v}], [{"type": "reveal"}], [{"type": "reset"}] *)
Definition vote_frame (v : string) : WSMessage :=
  TEXT (Loaded (PDict {[ "type" := PStr "vote"; "value" := PStr v ]})).
Definition reveal_frame : WSMessage :=
  TEXT (Loaded (PDict {[ "type" := PStr "reveal" ]})).
Definition reset_frame : WSMessage :=
  TEXT (Loaded (PDict {[ "type" := PStr "reset" ]})).

(** Sends that raise on one connection only, on none, on all. *)
Definition only (ws : WS) : WS → bool := λ w, bool_decide (w = ws).
Definition never : WS → bool := λ _, false.
Definition always : WS → bool := λ _, true.

(** Alice, Bob and Carol in a room; Alice and Bob have voted. *)
Definition room_abc : Room :=
  {| clients := {[ alice_ws; bob_ws; carol_ws ]};
     votes := {[ "alice" := PStr "5"; "bob" := PStr "3" ]};
     revealed := false |}.

(** The same room once the votes are revealed. *)
Definition room_abc_revealed : Room := reveal room_abc.

(** Alice then Bob join room R1 and Alice votes 5; all sends succeed. *)
Definition two_in_room : list event :=
  [ Open (Some "R1") (Some "alice") false;
    Open (Some "R1") (Some "bob") false;
    Frame 0 (vote_frame "5") [alice_ws; bob_ws] never ].

(** Alice joins room R1 alone and votes; the send of the resulting state to
    her own connection raises. *)
Definition lonely_vote_lost : list event :=
  [ Open (Some "R1") (Some "alice") false;
    Frame 0 (vote_frame "5") [alice_ws] always ].

(** Alice and Bob are in room R1.  Alice reveals and the send to Bob
    raises, while Bob's handler still waits on its stream.  Alice leaves,
    Carol joins R1, and then Bob's stream ends. *)
Definition late_finally : list event :=
  [ Open (Some "R1") (Some "alice") false;
    Open (Some "R1") (Some "bob") false;
    Frame 0 reveal_frame [alice_ws; bob_ws] (only bob_ws);
    Close 0;
    Open (Some "R1") (Some "carol") false;
    Close 1 ].

(** Alice is on her own in a room; the votes are empty. *)
Definition room_a : Room :=
  {| clients := {[ alice_ws ]}; votes := ∅; revealed := false |}.

(** A second connection under the name of Alice. *)
Definition alice_ws' : WS := {| ws_id := 1; client_id := "alice" |}.

(** Alice joins room R1 twice, from two connections. *)
Definition alice_twice : list event :=
  [ Open (Some "R1") (Some "alice") false;
    Open (Some "R1") (Some "alice") false ].

(** * Properties *)

(** ** [Room] *)

Section room.
Implicit Types (room : Room) (ws : WS) (vs : gmap string pyval).

(** The loop of [remove_client] pops the key of the leaving client, if
    the votes have it, and nothing else. *)
Lemma foldl_pop_if_owner ws (items : list (string * pyval)) vs :
  foldl (pop_if_owner ws) vs items = vs ∨
  foldl (pop_if_owner ws) vs items = delete (client_id ws) vs.
Proof.
  revert vs. induction items as [|[k v] items IH]; intros vs; simpl.
  - by left.
  - unfold pop_if_owner at 2 4. simpl. case_decide as Hk.
    + subst k. right.
      destruct (IH (delete (client_id ws) vs)) as [-> | ->]; [done|].
      apply delete_delete_eq.
    + apply IH.
Qed.

Lemma foldl_pop_if_owner_elem ws (items : list (string * pyval)) vs :
  client_id ws ∈ items.*1 →
  foldl (pop_if_owner ws) vs items = delete (client_id ws) vs.
Proof.
  revert vs. induction items as [|[k v] items IH]; intros vs Hin; simpl.
  - by apply elem_of_nil in Hin.
  - unfold pop_if_owner at 2. simpl. case_decide as Hk.
    + subst k.
      destruct (foldl_pop_if_owner ws items (delete (client_id ws) vs))
        as [-> | ->]; [done|apply delete_delete_eq].
    + apply IH. simpl in Hin. apply elem_of_cons in Hin as [?|?]; [|done].
      congruence.
Qed.

Lemma remove_client_votes ws room :
  votes (remove_client ws room) = delete (client_id ws) (votes room).
Proof.
  simpl. destruct (votes room !! client_id ws) as [v|] eqn:Hv.
  - apply foldl_pop_if_owner_elem.
    apply list_elem_of_fmap. exists (client_id ws, v). split; [done|].
    by apply elem_of_map_to_list.
  - rewrite (delete_id _ _ Hv).
    destruct (foldl_pop_if_owner ws (map_to_list (votes room)) (votes room))
      as [-> | ->]; [done|by apply delete_id].
Qed.

Lemma remove_client_clients ws room :
  clients (remove_client ws room) = clients room ∖ {[ws]}.
Proof. done. Qed.

Lemma remove_client_revealed ws room :
  revealed (remove_client ws room) = revealed room.
Proof. done. Qed.

Lemma submit_vote_votes user value room :
  votes (submit_vote user value room) = <[user := value]> (votes room).
Proof. unfold submit_vote; simpl. by destruct (revealed room). Qed.

Lemma submit_vote_clients user value room :
  clients (submit_vote user value room) = clients room.
Proof. unfold submit_vote; simpl. by destruct (revealed room). Qed.

Lemma submit_vote_revealed user value room :
  revealed (submit_vote user value room) = false.
Proof. unfold submit_vote; simpl. by destruct (revealed room) eqn:E. Qed.

(** Recording then hiding is hiding then recording. *)
Lemma submit_vote_order user value room :
  submit_vote user value room = submit_vote_hide_first user value room.
Proof.
  unfold submit_vote, submit_vote_hide_first; simpl.
  by destruct (revealed room) eqn:E; simpl; rewrite ?E.
Qed.

(** The room after several evictions. *)
Lemma foldl_remove_client_clients (l : list WS) room :
  clients (foldl (λ r w, remove_client w r) room l)
  = clients room ∖ list_to_set l.
Proof.
  revert room. induction l as [|w l IH]; intros room; simpl.
  - set_solver.
  - rewrite IH. simpl. set_solver.
Qed.

Lemma foldl_remove_client_revealed (l : list WS) room :
  revealed (foldl (λ r w, remove_client w r) room l) = revealed room.
Proof. revert room. induction l as [|w l IH]; intros room; simpl; [done|by rewrite IH]. Qed.

Lemma foldl_remove_client_votes (l : list WS) room (u : string) :
  votes (foldl (λ r w, remove_client w r) room l) !! u
  = if decide (u ∈ client_id <$> l) then None else votes room !! u.
Proof.
  revert room. induction l as [|w l IH]; intros room.
  - cbn [foldl fmap list_fmap].
    destruct (decide (u ∈ [])) as [H|_]; [by apply elem_of_nil in H|done].
  - cbn [foldl]. rewrite IH. rewrite remove_client_votes. rewrite fmap_cons.
    destruct (decide (u ∈ client_id <$> l)) as [Hl|Hl].
    + rewrite decide_True; [done|by apply list_elem_of_further].
    + destruct (decide (u = client_id w)) as [->|Hne].
      * rewrite lookup_delete_eq, decide_True; [done|apply list_elem_of_here].
      * rewrite lookup_delete_ne by done.
        rewrite decide_False; [done|].
        intros [?|?]%elem_of_cons; done.
Qed.
End room.

(** ** Broadcast *)

Section broadcast.
Variable raises : WS → bool.
Implicit Types (room : Room) (ws : WS) (snapshot : list WS).

Lemma evicted_cons_raises ws snapshot :
  raises ws = true → evicted raises (ws :: snapshot) = ws :: evicted raises snapshot.
Proof. intros H. unfold evicted. rewrite filter_cons_True; [done|by apply Is_true_true]. Qed.

Lemma evicted_cons_sends ws snapshot :
  raises ws = false → evicted raises (ws :: snapshot) = evicted raises snapshot.
Proof. intros H. unfold evicted. rewrite filter_cons_False; [done|by apply Is_true_false]. Qed.

Lemma elem_of_evicted ws snapshot :
  ws ∈ evicted raises snapshot ↔ raises ws = true ∧ ws ∈ snapshot.
Proof.
  unfold evicted. rewrite list_elem_of_filter.
  destruct (raises ws); naive_solver.
Qed.

(** The room after the pass: the members whose send raised have been
    removed, one [remove_client] each, in the order of the snapshot. *)
Lemma broadcast_loop_room shown snapshot room :
  (broadcast_loop raises shown snapshot room).1
  = foldl (λ r w, remove_client w r) room (evicted raises snapshot).
Proof.
  revert room. induction snapshot as [|ws rest IH]; intros room; [done|].
  cbn [broadcast_loop]. destruct (raises ws) eqn:Hr.
  - rewrite evicted_cons_raises by done. apply IH.
  - rewrite evicted_cons_sends by done. rewrite <- IH.
    by destruct (broadcast_loop raises shown rest room).
Qed.

(** Every output of the pass is a state frame for a member of the snapshot
    whose send did not raise; it carries the flag read before the loop and
    the votes of the room as some of the evictions have left them. *)
Lemma broadcast_loop_out shown snapshot room o :
  o ∈ (broadcast_loop raises shown snapshot room).2 →
  ∃ ws l,
    o = SendJson ws {| p_type := "state";
                       p_votes := votes (foldl (λ r w, remove_client w r) room l);
                       p_revealed := shown |}
    ∧ ws ∈ snapshot ∧ raises ws = false ∧ l ⊆ evicted raises snapshot.
Proof.
  revert room. induction snapshot as [|ws rest IH]; intros room.
  - intros H. by apply elem_of_nil in H.
  - cbn [broadcast_loop]. destruct (raises ws) eqn:Hr.
    + intros (w & l & -> & Hw & Hs & Hl)%IH.
      exists w, (ws :: l). rewrite evicted_cons_raises by done.
      split_and!; [done|by apply list_elem_of_further|done|].
      intros x [->|Hx]%elem_of_cons; [apply list_elem_of_here|].
      apply list_elem_of_further. by apply Hl.
    + specialize (IH room).
      destruct (broadcast_loop raises shown rest room) as [room' out].
      simpl in *. rewrite evicted_cons_sends by done.
      intros [->|Ho]%elem_of_cons.
      * exists ws, []. split_and!; [done|apply list_elem_of_here|done|].
        intros x Hx. by apply elem_of_nil in Hx.
      * destruct (IH Ho) as (w & l & -> & Hw & Hs & Hl).
        exists w, l. split_and!; [done|by apply list_elem_of_further|done|done].
Qed.

(** A send that raises does not stop the loop: every member of the
    snapshot whose send does not raise gets a frame. *)
Lemma broadcast_loop_delivers shown snapshot room ws :
  ws ∈ snapshot → raises ws = false →
  ∃ p, SendJson ws p ∈ (broadcast_loop raises shown snapshot room).2.
Proof.
  revert room. induction snapshot as [|w rest IH]; intros room Hin Hs.
  - by apply elem_of_nil in Hin.
  - cbn [broadcast_loop]. destruct (raises w) eqn:Hr.
    + apply IH; [|done]. apply elem_of_cons in Hin as [->|?]; [congruence|done].
    + specialize (IH room).
      destruct (broadcast_loop raises shown rest room) as [room' out].
      simpl in *. apply elem_of_cons in Hin as [->|Hin].
      * eexists. apply list_elem_of_here.
      * destruct (IH Hin Hs) as [p Hp]. exists p. by apply list_elem_of_further.
Qed.

(** A member whose send raised has left the room when the pass ends, and
    so has the vote under its name. *)
Lemma broadcast_evicts snapshot room ws :
  ws ∈ snapshot → raises ws = true →
  (ws ∉ clients (broadcast_room_state raises snapshot room).1) ∧
  votes (broadcast_room_state raises snapshot room).1 !! client_id ws = None.
Proof.
  intros Hin Hr. unfold broadcast_room_state. rewrite broadcast_loop_room.
  assert (ws ∈ evicted raises snapshot) as He by by apply elem_of_evicted.
  split.
  - rewrite foldl_remove_client_clients. set_solver.
  - rewrite foldl_remove_client_votes. rewrite decide_True; [done|].
    by apply list_elem_of_fmap_2.
Qed.

(** The pass keeps the flag of the room. *)
Lemma broadcast_revealed snapshot room :
  revealed (broadcast_room_state raises snapshot room).1 = revealed room.
Proof.
  unfold broadcast_room_state.
  by rewrite broadcast_loop_room, foldl_remove_client_revealed.
Qed.

(** A pass removes votes and never adds one. *)
Lemma broadcast_out_absent snapshot room (u : string) ws p :
  votes room !! u = None →
  SendJson ws p ∈ (broadcast_room_state raises snapshot room).2 →
  p_votes p !! u = None.
Proof.
  intros Hu (w & l & [= -> ->] & _)%broadcast_loop_out. simpl.
  rewrite foldl_remove_client_votes. by case_decide.
Qed.

Lemma broadcast_room_absent snapshot room (u : string) :
  votes room !! u = None →
  votes (broadcast_room_state raises snapshot room).1 !! u = None.
Proof.
  intros Hu. unfold broadcast_room_state.
  rewrite broadcast_loop_room, foldl_remove_client_votes. by case_decide.
Qed.
End broadcast.

(** When no send raises, the pass leaves the room as it is and every member
    gets the same frame, the state of the room. *)
Lemma broadcast_all_delivered raises snapshot room :
  (∀ ws, ws ∈ snapshot → raises ws = false) →
  broadcast_room_state raises snapshot room
  = (room, (λ ws, SendJson ws {| p_type := "state"; p_votes := votes room;
                                p_revealed := revealed room |}) <$> snapshot).
Proof.
  unfold broadcast_room_state. generalize (revealed room) as shown.
  induction snapshot as [|ws rest IH]; intros shown Hall; [done|].
  cbn [broadcast_loop]. rewrite Hall by apply list_elem_of_here.
  rewrite IH; [done|]. intros w Hw. apply Hall. by apply list_elem_of_further.
Qed.

Lemma evicted_none raises (snapshot : list WS) :
  (∀ w, w ∈ snapshot → raises w = false) → evicted raises snapshot = [].
Proof.
  induction snapshot as [|w rest IH]; intros Hall; [done|].
  rewrite evicted_cons_sends by apply Hall, list_elem_of_here.
  apply IH. intros x Hx. apply Hall. by apply list_elem_of_further.
Qed.

Lemma evicted_single raises (snapshot : list WS) ws :
  NoDup snapshot → ws ∈ snapshot → raises ws = true →
  (∀ w, w ∈ snapshot → raises w = true → w = ws) →
  evicted raises snapshot = [ws].
Proof.
  induction snapshot as [|w rest IH]; intros Hnd Hin Hr Honly.
  - by apply elem_of_nil in Hin.
  - apply NoDup_cons in Hnd as [Hw Hnd].
    destruct (raises w) eqn:Hrw.
    + assert (w = ws) as -> by (apply Honly; [apply list_elem_of_here|done]).
      rewrite evicted_cons_raises by done. f_equal.
      apply evicted_none. intros x Hx.
      destruct (raises x) eqn:Hrx; [|done].
      assert (x = ws) as -> by (apply Honly; [by apply list_elem_of_further|done]).
      done.
    + rewrite evicted_cons_sends by done.
      apply IH; [done| |done|].
      * apply elem_of_cons in Hin as [->|?]; [congruence|done].
      * intros x Hx. apply Honly. by apply list_elem_of_further.
Qed.

(** ** The room operations of the claims *)

(** C1: a vote handled while the room is revealed leaves the room hidden
    with the vote recorded under the user's name; recording then hiding, as
    the handler does, gives the room that hiding then recording gives; the
    handler broadcasts the room so obtained, every frame of that broadcast
    says [revealed = false], and the room is still hidden after it. *)
Theorem vote_after_reveal_hides (user : string) (value : pyval) (room : Room)
    (d : gmap string pyval) (raises : WS → bool) (snapshot : list WS) :
  revealed room = true →
  d !! "type" = Some (PStr "vote") →
  default PNone (d !! "value") = value →
  let room1 := submit_vote user value room in
  revealed room1 = false ∧
  votes room1 !! user = Some value ∧
  room1 = submit_vote_hide_first user value room ∧
  websocket_handler_body user raises snapshot (TEXT (Loaded (PDict d))) room
    = Some (broadcast_room_state raises snapshot room1) ∧
  (∀ ws p, SendJson ws p ∈ (broadcast_room_state raises snapshot room1).2 →
           p_revealed p = false) ∧
  revealed (broadcast_room_state raises snapshot room1).1 = false.
Proof.
  intros Hrev Htype Hvalue room1. subst room1.
  split_and!.
  - apply submit_vote_revealed.
  - rewrite submit_vote_votes. apply lookup_insert_eq.
  - apply submit_vote_order.
  - simpl. rewrite Htype. simpl. by rewrite Hvalue.
  - intros ws p (w & l & [= -> ->] & _)%broadcast_loop_out. simpl.
    apply submit_vote_revealed.
  - rewrite broadcast_revealed. apply submit_vote_revealed.
Qed.

Lemma vote_after_reveal_hides_witness :
  revealed room_abc_revealed = true ∧
  revealed (submit_vote "alice" (PStr "8") room_abc_revealed) = false ∧
  votes (submit_vote "alice" (PStr "8") room_abc_revealed) !! "alice"
    = Some (PStr "8").
Proof.
  split; [reflexivity|].
  pose proof (vote_after_reveal_hides "alice" (PStr "8") room_abc_revealed
                {[ "type" := PStr "vote"; "value" := PStr "8" ]}
                never [alice_ws; bob_ws; carol_ws]
                eq_refl eq_refl eq_refl) as (H1 & H2 & _).
  exact (conj H1 H2).
Defined.

(** C8: [reveal] sets the flag, whatever it was, keeps the votes, and a
    second [reveal] changes nothing. *)
Theorem reveal_idempotent (room : Room) :
  revealed (reveal room) = true ∧
  votes (reveal room) = votes room ∧
  reveal (reveal room) = reveal room.
Proof. by split_and!. Qed.

(** C9: [reset] empties the votes and clears the flag, whatever the room
    was, and a second [reset] gives the same room again. *)
Theorem reset_idempotent (room : Room) :
  votes (reset room) = ∅ ∧
  revealed (reset room) = false ∧
  votes (reset (reset room)) = ∅ ∧
  revealed (reset (reset room)) = false ∧
  reset (reset room) = reset room.
Proof. by split_and!. Qed.

(** The [finally] block of a handler does to the handler's room what
    [remove_client] does, on the very object the handler holds. *)
Lemma websocket_handler_finally_room (h : Handler) (self : PlanningPokerServer) room0 :
  store self !! h_room h = Some room0 →
  store (websocket_handler_finally h self) !! h_room h
  = Some (remove_client (h_ws h) room0).
Proof. intros H. unfold websocket_handler_finally. rewrite H. simpl. apply lookup_insert_eq. Qed.

(** C10: a member whose send raises during a broadcast is, when the pass
    ends, out of the members of the room, and the vote stored under its
    user name is out of the votes.  When it is the only one whose send
    raises, the room after the pass is [remove_client] of the room before,
    which is what the [finally] block of that connection's handler makes of
    the room on a disconnect. *)
Theorem eviction_erases_vote (raises : WS → bool) (snapshot : list WS)
    (room : Room) (ws : WS) :
  ws ∈ snapshot → raises ws = true →
  let room' := (broadcast_room_state raises snapshot room).1 in
  (ws ∉ clients room') ∧
  votes room' !! client_id ws = None ∧
  (NoDup snapshot → (∀ w, w ∈ snapshot → raises w = true → w = ws) →
   room' = remove_client ws room ∧
   ∀ (h : Handler) (self : PlanningPokerServer),
     h_ws h = ws → store self !! h_room h = Some room →
     store (websocket_handler_finally h self) !! h_room h = Some room').
Proof.
  intros Hin Hr room'. subst room'.
  destruct (broadcast_evicts raises snapshot room ws Hin Hr) as [Hc Hv].
  split_and!; [done|done|].
  intros Hnd Honly.
  assert ((broadcast_room_state raises snapshot room).1 = remove_client ws room)
    as Heq.
  { unfold broadcast_room_state. rewrite broadcast_loop_room.
    by rewrite (evicted_single raises snapshot ws). }
  split; [done|].
  intros h self <- Hroom. rewrite Heq. by apply websocket_handler_finally_room.
Qed.

Lemma eviction_erases_vote_witness :
  bob_ws ∈ [alice_ws; bob_ws; carol_ws] ∧ only bob_ws bob_ws = true ∧
  (bob_ws ∉ clients (broadcast_room_state (only bob_ws)
                       [alice_ws; bob_ws; carol_ws] room_abc).1) ∧
  votes (broadcast_room_state (only bob_ws)
           [alice_ws; bob_ws; carol_ws] room_abc).1 !! "bob" = None.
Proof.
  assert (bob_ws ∈ [alice_ws; bob_ws; carol_ws]) as Hin
    by (apply list_elem_of_further, list_elem_of_here).
  split; [exact Hin|]. split; [reflexivity|].
  destruct (eviction_erases_vote (only bob_ws) [alice_ws; bob_ws; carol_ws]
              room_abc bob_ws Hin eq_refl) as (H1 & H2 & _).
  exact (conj H1 H2).
Defined.

(** C7, on a run: Alice, Bob and Carol are the members, Alice and Bob have
    voted, the set is iterated in the order Alice, Bob, Carol and the send
    to Bob raises.  Bob is removed within the pass and Carol is still
    served, but Alice's frame carries both votes and Carol's frame only
    Alice's: the two members that are served get different payloads. *)
Theorem broadcast_payloads_differ :
  snapshot_of room_abc [alice_ws; bob_ws; carol_ws] ∧
  broadcast_room_state (only bob_ws) [alice_ws; bob_ws; carol_ws] room_abc
  = ({| clients := {[ alice_ws; carol_ws ]};
        votes := {[ "alice" := PStr "5" ]};
        revealed := false |},
     [ SendJson alice_ws
         {| p_type := "state";
            p_votes := {[ "alice" := PStr "5"; "bob" := PStr "3" ]};
            p_revealed := false |};
       SendJson carol_ws
         {| p_type := "state";
            p_votes := {[ "alice" := PStr "5" ]};
            p_revealed := false |} ]) ∧
  ({[ "alice" := PStr "5"; "bob" := PStr "3" ]} : gmap string pyval)
  ≠ {[ "alice" := PStr "5" ]}.
Proof.
  split_and!.
  - unfold snapshot_of. apply NoDup_Permutation.
    + apply (bool_decide_unpack _). by vm_compute.
    + apply NoDup_elements.
    + intros x. rewrite elem_of_elements. unfold room_abc; simpl.
      rewrite !elem_of_union, !elem_of_singleton, !elem_of_cons, elem_of_nil.
      naive_solver.
  - by vm_compute.
  - intros H. apply (f_equal (λ m, m !! "bob")) in H. by vm_compute in H.
Qed.

(** ** The references of a reachable server *)

Section consistency.
Implicit Types (self : PlanningPokerServer) (h : Handler).

Lemma consistent_init : consistent server_init.
Proof.
  split; simpl; intros *; rewrite ?lookup_empty;
    try done; by intros [? ?].
Qed.

Lemma is_Some_insert_store (st : gmap nat Room) l l' room :
  is_Some (st !! l') → is_Some (<[l := room]> st !! l').
Proof. rewrite lookup_insert_is_Some. destruct (decide (l = l')); auto. Qed.

Lemma consistent_write_room self l room :
  consistent self → is_Some (store self !! l) →
  consistent (write_room l room self).
Proof.
  intros [Hr Hh Hnr Hnw] Hl. split; simpl.
  - intros rid l' H. apply is_Some_insert_store. eauto.
  - intros w h H. destruct (Hh w h H) as (? & ? & ?).
    split_and!; [done|done|by apply is_Some_insert_store].
  - intros l' [H|[_ H]]%lookup_insert_is_Some; [subst l'|]; auto.
  - done.
Qed.

Lemma consistent_websocket_handler_finally self h :
  consistent self → consistent (websocket_handler_finally h self).
Proof.
  intros Hc. unfold websocket_handler_finally.
  destruct (store self !! h_room h) as [room0|] eqn:Hroom; [|done].
  destruct Hc as [Hr Hh Hnr Hnw]. split; simpl.
  - intros rid l' H. apply is_Some_insert_store.
    case_decide; [|by eauto].
    apply lookup_delete_Some in H as [_ H]. eauto.
  - intros w h' [_ H]%lookup_delete_Some.
    destruct (Hh w h' H) as (? & ? & ?).
    split_and!; [done|done|by apply is_Some_insert_store].
  - intros l' [H|[_ H]]%lookup_insert_is_Some; [|by auto].
    subst l'. apply Hnr. by rewrite Hroom.
  - intros w [h' [_ H]%lookup_delete_Some]. apply Hnw. by rewrite H.
Qed.

Lemma consistent_websocket_handler_message self h msg snapshot raises :
  consistent self →
  consistent (websocket_handler_message h msg snapshot raises self).1.
Proof.
  intros Hc. unfold websocket_handler_message.
  destruct (store self !! h_room h) as [room0|] eqn:Hroom; [|done].
  destruct (websocket_handler_body _ _ _ _ _) as [[room out]|]; simpl.
  - apply consistent_write_room; [done|by rewrite Hroom].
  - by apply consistent_websocket_handler_finally.
Qed.

Lemma consistent_websocket_handler_open self room_id user raises :
  consistent self →
  consistent (websocket_handler_open room_id user raises self).1.
Proof.
  intros Hc. unfold websocket_handler_open.
  destruct (py_not room_id || py_not user); [done|].
  unfold setdefault.
  destruct Hc as [Hr Hh Hnr Hnw].
  destruct (rooms self !! default "" room_id) as [l|] eqn:Hl.
  - destruct (Hr _ _ Hl) as [room0 Hroom0]. rewrite Hroom0.
    split; simpl.
    + intros rid l' H. apply is_Some_insert_store. eauto.
    + intros w h [[<- <-]|[Hne H]]%lookup_insert_Some; simpl.
      * split_and!; [done|done|]. rewrite lookup_insert_eq. eauto.
      * destruct (Hh w h H) as (? & ? & ?).
        split_and!; [done|done|by apply is_Some_insert_store].
    + intros l' [H|[_ H]]%lookup_insert_is_Some; [|by auto].
      subst l'. apply Hnr. by rewrite Hroom0.
    + intros w [H|[_ H]]%lookup_insert_is_Some; [subst w; lia|].
      specialize (Hnw w H). lia.
  - simpl. rewrite lookup_insert_eq. split; simpl.
    + intros rid l' [[_ <-]|[_ H]]%lookup_insert_Some.
      * rewrite lookup_insert_eq. eauto.
      * do 2 apply is_Some_insert_store. eauto.
    + intros w h [[<- <-]|[Hne H]]%lookup_insert_Some; simpl.
      * split_and!; [done|done|]. rewrite lookup_insert_eq. eauto.
      * destruct (Hh w h H) as (? & ? & ?).
        split_and!; [done|done|by do 2 apply is_Some_insert_store].
    + intros l' [H|[_ [H|[_ H]]%lookup_insert_is_Some]]%lookup_insert_is_Some.
      * subst l'. lia.
      * subst l'. lia.
      * specialize (Hnr l' H). lia.
    + intros w [H|[_ H]]%lookup_insert_is_Some; [subst w; lia|].
      specialize (Hnw w H). lia.
Qed.

Lemma consistent_step self e : consistent self → consistent (step e self).1.
Proof.
  intros Hc. destruct e as [rid u raises|w msg snapshot raises|w]; simpl.
  - by apply consistent_websocket_handler_open.
  - destruct (handlers self !! w); [|done].
    by apply consistent_websocket_handler_message.
  - destruct (handlers self !! w); [|done].
    by apply consistent_websocket_handler_finally.
Qed.

Lemma reachable_consistent self : reachable self → consistent self.
Proof.
  induction 1 as [|e self _ IH _]; [apply consistent_init|].
  by apply consistent_step.
Qed.

Lemma reachable_run evs self :
  reachable self → run_enabled evs self → reachable (run evs self).1.
Proof.
  revert self. induction evs as [|e evs IH]; intros self Hr He; [done|].
  destruct He as [He Hrest]. cbn [run].
  pose proof (reachable_step e self Hr He) as Hr1.
  specialize (IH _ Hr1 Hrest).
  destruct (step e self) as [self1 out1]. simpl in IH.
  by destruct (run evs self1) as [self2 out2].
Qed.
End consistency.

(** Evaluation of [enabled] on a closed state. *)
Ltac solve_enabled :=
  lazymatch goal with
  | |- enabled (Open _ _ _) _ => exact I
  | |- enabled (Close _) _ => eexists; vm_compute; reflexivity
  | |- enabled (Frame _ _ _ _) _ =>
      do 2 eexists; split_and!;
      [ vm_compute; reflexivity
      | vm_compute; reflexivity
      | unfold snapshot_of; apply (bool_decide_unpack _); vm_compute; exact I ]
  end.

Ltac solve_run_enabled :=
  repeat (split; [solve_enabled|]); exact I.

Lemma two_in_room_enabled : run_enabled two_in_room server_init.
Proof. solve_run_enabled. Qed.

Lemma lonely_vote_lost_enabled : run_enabled lonely_vote_lost server_init.
Proof. solve_run_enabled. Qed.

Lemma late_finally_enabled : run_enabled late_finally server_init.
Proof. solve_run_enabled. Qed.

(** ** Opening a connection *)

Lemma py_not_true (x : option string) :
  py_not x = true ↔ x = None ∨ x = Some "".
Proof.
  destruct x as [s|]; simpl.
  - rewrite bool_decide_eq_true. naive_solver.
  - naive_solver.
Qed.

(** C4: a request in which [roomId] or [user] is missing or empty is
    answered by a response with status 400, a client error; no websocket is
    created, nothing is sent on any connection, and the server (the
    dictionary of rooms, every room, the running handlers) is as before. *)
Theorem missing_parameter_rejected (room_id user : option string)
    (raises : bool) (self : PlanningPokerServer) :
  room_id = None ∨ room_id = Some "" ∨ user = None ∨ user = Some "" →
  step (Open room_id user raises) self
  = (self, [Response 400 "Missing roomId or user in query params"]) ∧
  (∀ status text,
     Response status text ∈ (step (Open room_id user raises) self).2 →
     400 ≤ status < 500) ∧
  (∀ ws p, SendJson ws p ∉ (step (Open room_id user raises) self).2) ∧
  handlers (step (Open room_id user raises) self).1 = handlers self ∧
  rooms (step (Open room_id user raises) self).1 = rooms self ∧
  store (step (Open room_id user raises) self).1 = store self.
Proof.
  intros H.
  assert (py_not room_id || py_not user = true) as Hnot.
  { apply orb_true_iff. rewrite !py_not_true. naive_solver. }
  simpl. unfold websocket_handler_open. rewrite Hnot. simpl.
  split_and!; try done.
  - intros status text [[= -> ->]|?%elem_of_nil]%elem_of_cons; [lia|done].
  - intros ws p [?|?%elem_of_nil]%elem_of_cons; done.
Qed.

Lemma missing_parameter_rejected_witness :
  (Some "R1" = None ∨ Some "R1" = Some "" ∨
   (None : option string) = None ∨ None = Some "") ∧
  step (Open (Some "R1") None false) (run two_in_room server_init).1
  = ((run two_in_room server_init).1,
     [Response 400 "Missing roomId or user in query params"]).
Proof.
  assert (Some "R1" = None ∨ Some "R1" = Some "" ∨
          (None : option string) = None ∨ None = Some "") as H
    by (right; right; left; reflexivity).
  split; [exact H|].
  destruct (missing_parameter_rejected (Some "R1") None false
              (run two_in_room server_init).1 H) as (Hstep & _).
  exact Hstep.
Defined.

Lemma py_not_nonempty (s : string) : s ≠ "" → py_not (Some s) = false.
Proof. intros H. simpl. by apply bool_decide_eq_false. Qed.

(** C5: a request with both parameters joins.  The room is the one that
    [self.rooms] has under the identifier, or a new empty room put there;
    the new websocket is added to its members and a handler starts; the one
    frame that is sent goes to the new websocket and carries the votes and
    the flag of that room (nothing at all if that send raises).  For an
    identifier that [self.rooms] did not have, the frame is
    [{"type": "state", "votes": {}, "revealed": false}]. *)
Theorem join_sends_state_to_joiner (room_id user : string) (raises : bool)
    (self : PlanningPokerServer) :
  reachable self → room_id ≠ "" → user ≠ "" →
  let ws := {| ws_id := next_ws self; client_id := user |} in
  let self' := (step (Open (Some room_id) (Some user) raises) self).1 in
  let out := (step (Open (Some room_id) (Some user) raises) self).2 in
  ∃ l room0,
    match rooms self !! room_id with
    | Some l0 => l = l0 ∧ store self !! l = Some room0
    | None => l = next_room self ∧ store self !! l = None ∧ room0 = Room_init
    end ∧
    rooms self' !! room_id = Some l ∧
    store self' !! l = Some (add_client ws room0) ∧
    ws ∈ clients (add_client ws room0) ∧
    votes (add_client ws room0) = votes room0 ∧
    revealed (add_client ws room0) = revealed room0 ∧
    handlers self' !! ws_id ws
    = Some {| h_room_id := room_id; h_user := user; h_ws := ws; h_room := l |} ∧
    out = (if raises then []
           else [SendJson ws {| p_type := "state";
                                p_votes := votes room0;
                                p_revealed := revealed room0 |}]) ∧
    (∀ w p, SendJson w p ∈ out → w = ws) ∧
    (rooms self !! room_id = None → raises = false →
     out = [SendJson ws {| p_type := "state"; p_votes := ∅;
                           p_revealed := false |}]).
Proof.
  intros Hreach Hrid Huser ws self' out.
  apply reachable_consistent in Hreach as [Hr Hh Hnr Hnw].
  subst self' out. simpl. unfold websocket_handler_open.
  rewrite !py_not_nonempty by done. simpl. unfold setdefault.
  destruct (rooms self !! room_id) as [l|] eqn:Hl.
  - destruct (Hr _ _ Hl) as [room0 Hroom0]. rewrite Hroom0. simpl.
    exists l, room0. rewrite !lookup_insert_eq. unfold send_room_state; simpl.
    split_and!; try done.
    + set_solver.
    + destruct raises; [by intros ?? ?%elem_of_nil|].
      by intros w p [[= -> _]|?%elem_of_nil]%elem_of_cons.
  - simpl. rewrite lookup_insert_eq. simpl.
    exists (next_room self), Room_init. rewrite !lookup_insert_eq.
    unfold send_room_state; simpl.
    assert (store self !! next_room self = None) as Hfresh.
    { destruct (store self !! next_room self) eqn:E; [|done].
      assert (next_room self < next_room self) by (apply Hnr; by rewrite E). lia. }
    split_and!; try done.
    + set_solver.
    + destruct raises; [by intros ?? ?%elem_of_nil|].
      by intros w p [[= -> _]|?%elem_of_nil]%elem_of_cons.
    + by intros _ ->.
Qed.

Lemma join_sends_state_to_joiner_witness :
  reachable server_init ∧ "R1" ≠ "" ∧ "alice" ≠ "" ∧
  (step (Open (Some "R1") (Some "alice") false) server_init).2
  = [SendJson alice_ws {| p_type := "state"; p_votes := ∅;
                          p_revealed := false |}].
Proof.
  assert ("R1" ≠ "") as H1 by discriminate.
  assert ("alice" ≠ "") as H2 by discriminate.
  split_and!; [exact reachable_init|exact H1|exact H2|].
  destruct (join_sends_state_to_joiner "R1" "alice" false server_init
              reachable_init H1 H2)
    as (l & room0 & _ & _ & _ & _ & _ & _ & _ & _ & _ & Hfirst).
  exact (Hfirst eq_refl eq_refl).
Defined.

(** ** Frames *)



(** C2, on a run: Alice and Bob are in room R1 and Alice has voted.  Alice's
    connection then sends the text [5], which [json.loads] accepts and which
    has no ["type"].  [data.get] raises, the [finally] block runs and the
    handler is over: Alice is no longer a member and her vote is gone. *)
Theorem non_object_frame_ends_handler :
  let self := (run two_in_room server_init).1 in
  let frame := Frame 0 (TEXT (Loaded (PInt 5))) [alice_ws; bob_ws] never in
  reachable self ∧ enabled frame self ∧
  handlers self !! 0
  = Some {| h_room_id := "R1"; h_user := "alice"; h_ws := alice_ws;
            h_room := 0 |} ∧
  store self !! 0
  = Some {| clients := {[ alice_ws; bob_ws ]};
            votes := {[ "alice" := PStr "5" ]};
            revealed := false |} ∧
  py_get (PInt 5) "type" = None ∧
  (∀ room, websocket_handler_body "alice" never [alice_ws; bob_ws]
             (TEXT (Loaded (PInt 5))) room = None) ∧
  handlers (step frame self).1 !! 0 = None ∧
  store (step frame self).1 !! 0
  = Some {| clients := {[ bob_ws ]}; votes := ∅; revealed := false |} ∧
  (step frame self).1 ≠ self.
Proof.
  intros self frame. subst self frame. split_and!.
  - apply reachable_run; [apply reachable_init|apply two_in_room_enabled].
  - solve_enabled.
  - by vm_compute.
  - by vm_compute.
  - done.
  - done.
  - by vm_compute.
  - by vm_compute.
  - intros H. apply (f_equal (λ s, handlers s !! 0)) in H. by vm_compute in H.
Qed.

(** C3, on two runs.  In the first, the only member of room R1 is removed
    by a broadcast whose send raises: R1 stays in [self.rooms] with no
    member.  In the second, a handler whose connection a broadcast had
    removed reaches its [finally] block after its room was emptied, deleted
    and created anew by another join: it finds its own room empty and
    deletes the identifier, so the new room, which has a member, is no
    longer in [self.rooms]. *)
Theorem broadcast_eviction_breaks_registry :
  (let self := (run lonely_vote_lost server_init).1 in
   reachable self ∧
   rooms self !! "R1" = Some 0 ∧
   store self !! 0 = Some {| clients := ∅; votes := ∅; revealed := false |}) ∧
  (let self := (run late_finally server_init).1 in
   reachable self ∧
   rooms self !! "R1" = None ∧
   store self !! 1
   = Some {| clients := {[ carol_ws ]}; votes := ∅; revealed := false |} ∧
   handlers self !! 2
   = Some {| h_room_id := "R1"; h_user := "carol"; h_ws := carol_ws;
             h_room := 1 |}).
Proof.
  split; intros self; subst self; split_and!.
  - apply reachable_run; [apply reachable_init|apply lonely_vote_lost_enabled].
  - by vm_compute.
  - by vm_compute.
  - apply reachable_run; [apply reachable_init|apply late_finally_enabled].
  - by vm_compute.
  - by vm_compute.
  - by vm_compute.
Qed.

(** ** Leaving *)

Section leaving.
Variables (u : string) (l : nat).
Implicit Types (self : PlanningPokerServer) (h : Handler) (room : Room).

Lemma websocket_handler_body_keeps_absent user raises snapshot msg room room' out :
  votes room !! u = None →
  (is_vote msg = true → user ≠ u) →
  websocket_handler_body user raises snapshot msg room = Some (room', out) →
  votes room' !! u = None ∧
  ∀ ws p, SendJson ws p ∈ out → p_votes p !! u = None.
Proof.
  intros Hu Hvote.
  assert (∀ r, votes r !! u = None →
               Some (broadcast_room_state raises snapshot r) = Some (room', out) →
               votes room' !! u = None ∧
               ∀ ws p, SendJson ws p ∈ out → p_votes p !! u = None) as Hb.
  { intros r Hr [= Heq]. split.
    - replace room' with (broadcast_room_state raises snapshot r).1
        by by rewrite Heq.
      by apply broadcast_room_absent.
    - intros ws p Hp. apply (broadcast_out_absent raises snapshot r u ws p Hr).
      by rewrite Heq. }
  assert (Some (room, []) = Some (room', out) →
          votes room' !! u = None ∧
          ∀ ws p, SendJson ws p ∈ out → p_votes p !! u = None) as Hskip.
  { intros [= <- <-]. split; [done|]. by intros ?? ?%elem_of_nil. }
  destruct msg as [[|data]| |]; simpl; try done.
  destruct (py_get data "type") as [action|] eqn:Ha; simpl; [|done].
  simpl in Hvote. rewrite Ha in Hvote.
  destruct (py_eq_str action "vote").
  - destruct (py_get data "value") as [value|]; simpl; [|done].
    apply Hb. rewrite submit_vote_votes, lookup_insert_ne; [done|by apply Hvote].
  - destruct (py_eq_str action "reveal"); [by apply Hb|].
    destruct (py_eq_str action "reset"); [by apply Hb|done].
Qed.

Lemma websocket_handler_finally_keeps_absent self h :
  no_vote_of u l self → no_vote_of u l (websocket_handler_finally h self).
Proof.
  intros Hu room. unfold websocket_handler_finally.
  destruct (store self !! h_room h) as [room0|] eqn:Hroom; [|by apply Hu].
  simpl. intros [[<- <-]|[_ H]]%lookup_insert_Some; [|by apply Hu].
  rewrite remove_client_votes. apply lookup_delete_None. right. by apply Hu.
Qed.

Lemma step_keeps_absent self e :
  no_vote_of u l self → ¬ votes_as u l self e →
  no_vote_of u l (step e self).1 ∧
  (emitter self e = Some l →
   ∀ ws p, SendJson ws p ∈ (step e self).2 → p_votes p !! u = None).
Proof.
  intros Hu Hnot. destruct e as [rid user raises|w msg snapshot raises|w]; simpl.
  - unfold websocket_handler_open.
    destruct (py_not rid || py_not user) eqn:Hp; simpl.
    { split; [done|]. intros _ ws p [?|?%elem_of_nil]%elem_of_cons; done. }
    assert (no_vote_of u l (setdefault (default "" rid) self).2) as Hu1.
    { unfold setdefault. destruct (rooms self !! default "" rid); [done|].
      intros room; simpl. intros [[_ <-]|[_ H]]%lookup_insert_Some; [done|].
      by apply Hu. }
    destruct (setdefault (default "" rid) self) as [l1 self1] eqn:Hsd.
    simpl in *.
    destruct (store self1 !! l1) as [room0|] eqn:Hroom0; simpl.
    + split.
      * intros room; simpl.
        intros [[-> <-]|[_ H]]%lookup_insert_Some; [|by apply Hu1].
        simpl. by apply Hu1.
      * intros [= ->] ws p. unfold send_room_state.
        destruct raises; [by intros ?%elem_of_nil|].
        intros [[= _ ->]|?%elem_of_nil]%elem_of_cons; [|done].
        simpl. by apply Hu1.
    + split; [done|]. by intros _ ?? ?%elem_of_nil.
  - destruct (handlers self !! w) as [h|] eqn:Hh; simpl.
    2:{ split; [done|]. by intros _ ?? ?%elem_of_nil. }
    unfold websocket_handler_message.
    destruct (store self !! h_room h) as [room0|] eqn:Hroom; simpl.
    2:{ split; [done|]. by intros _ ?? ?%elem_of_nil. }
    destruct (websocket_handler_body (h_user h) raises snapshot msg room0)
      as [[room out]|] eqn:Hon; simpl.
    + destruct (decide (h_room h = l)) as [Hl|Hl].
      * destruct (websocket_handler_body_keeps_absent _ _ _ _ _ _ _
                    (Hu _ ltac:(by rewrite <- Hl)) ltac:(naive_solver) Hon)
          as [Hroom' Hout].
        split; [|by intros _].
        intros r; simpl. intros [[_ <-]|[_ H]]%lookup_insert_Some; [done|].
        by apply Hu.
      * split; [|by intros [= ?]].
        intros r; simpl. intros [[? _]|[_ H]]%lookup_insert_Some; [done|].
        by apply Hu.
    + split; [by apply websocket_handler_finally_keeps_absent|].
      by intros _ ?? ?%elem_of_nil.
  - destruct (handlers self !! w) as [h|]; simpl.
    + split; [by apply websocket_handler_finally_keeps_absent|done].
    + done.
Qed.

(** Once the room holds no vote under a name, no frame that comes from
    the room shows one, until a handler of that room votes under it. *)
Lemma run_keeps_absent evs self :
  no_vote_of u l self → no_vote_as u l evs self →
  ∀ ws p, SendJson ws p ∈ frames_of l evs self → p_votes p !! u = None.
Proof.
  revert self. induction evs as [|e evs IH]; intros self Hu Hno ws p.
  - by intros ?%elem_of_nil.
  - destruct Hno as [He Hrest].
    destruct (step_keeps_absent self e Hu He) as [Hu1 Hout].
    cbn [frames_of]. intros [H|H]%elem_of_app.
    + case_decide as Hem; [by eapply Hout|by apply elem_of_nil in H].
    + by eapply IH.
Qed.
End leaving.

(** C6: when the stream of a connection ends, its handler is over, the
    connection is out of the members of the room the handler held, and the
    vote under the handler's user name is out of the votes of that room.
    From then on no frame that comes from that room shows a vote under that
    name, as long as no connection of the room votes under it again. *)
Theorem disconnect_removes_member_and_vote (self : PlanningPokerServer)
    (w : nat) (h : Handler) :
  reachable self → handlers self !! w = Some h →
  let self' := (step (Close w) self).1 in
  handlers self' !! w = None ∧
  (∃ room0 room,
     store self !! h_room h = Some room0 ∧
     store self' !! h_room h = Some room ∧
     room = remove_client (h_ws h) room0 ∧
     (h_ws h ∉ clients room) ∧
     clients room = clients room0 ∖ {[h_ws h]} ∧
     votes room = delete (h_user h) (votes room0) ∧
     votes room !! h_user h = None) ∧
  (∀ evs, no_vote_as (h_user h) (h_room h) evs self' →
          ∀ ws p, SendJson ws p ∈ frames_of (h_room h) evs self' →
                  p_votes p !! h_user h = None).
Proof.
  intros Hreach Hh self'.
  destruct (reachable_consistent _ Hreach) as [_ Hhs _ _].
  destruct (Hhs w h Hh) as (Hid & Hcid & [room0 Hroom0]).
  assert (self' = websocket_handler_finally h self) as Hself'.
  { subst self'. simpl. by rewrite Hh. }
  assert (store self' !! h_room h = Some (remove_client (h_ws h) room0)) as Hroom.
  { rewrite Hself'. by apply websocket_handler_finally_room. }
  assert (votes (remove_client (h_ws h) room0) = delete (h_user h) (votes room0))
    as Hvotes by by rewrite remove_client_votes, Hcid.
  split_and!.
  - rewrite Hself'. unfold websocket_handler_finally. rewrite Hroom0. simpl.
    rewrite Hid. apply lookup_delete_eq.
  - exists room0, (remove_client (h_ws h) room0).
    split_and!; try done.
    + rewrite remove_client_clients. set_solver.
    + rewrite Hvotes. apply lookup_delete_eq.
  - intros evs Hno. apply run_keeps_absent; [|done].
    intros room Hr. rewrite Hroom in Hr. injection Hr as <-.
    rewrite Hvotes. apply lookup_delete_eq.
Qed.

Lemma disconnect_removes_member_and_vote_witness :
  reachable (run two_in_room server_init).1 ∧
  handlers (run two_in_room server_init).1 !! 0
  = Some {| h_room_id := "R1"; h_user := "alice"; h_ws := alice_ws;
            h_room := 0 |} ∧
  handlers (step (Close 0) (run two_in_room server_init).1).1 !! 0 = None ∧
  ∀ ws p,
    SendJson ws p ∈ frames_of 0 [Frame 1 reveal_frame [bob_ws] never]
                      (step (Close 0) (run two_in_room server_init).1).1 →
    p_votes p !! "alice" = None.
Proof.
  assert (reachable (run two_in_room server_init).1) as Hreach
    by (apply reachable_run; [apply reachable_init|apply two_in_room_enabled]).
  assert (handlers (run two_in_room server_init).1 !! 0
          = Some {| h_room_id := "R1"; h_user := "alice"; h_ws := alice_ws;
                    h_room := 0 |}) as Hh by (vm_compute; reflexivity).
  split; [exact Hreach|]. split; [exact Hh|].
  destruct (disconnect_removes_member_and_vote _ 0 _ Hreach Hh)
    as (Hgone & _ & Hlater).
  split; [exact Hgone|].
  apply (Hlater [Frame 1 reveal_frame [bob_ws] never]).
  split; [|exact I].
  intros (h & _ & _ & _ & Hvote). vm_compute in Hvote. discriminate Hvote.
Defined.

(** ** The registry while every send succeeds *)

Lemma linked_init : linked server_init.
Proof.
  split; simpl; intros *; rewrite ?lookup_empty; try done; by intros [? ?].
Qed.

Lemma linked_registry_exact (self : PlanningPokerServer) :
  linked self → registry_exact self.
Proof.
  intros [Hh Hm Hr _ _ _]. split; [done|].
  intros l room Hroom Hne.
  apply set_choose_L in Hne as [ws Hws].
  destruct (Hm l room ws Hroom Hws) as (h & Hhs & _ & <-).
  destruct (Hh _ _ Hhs) as (_ & Hrid & _). eauto.
Qed.

(** A frame whose broadcast reaches everyone leaves the members alone. *)
Lemma websocket_handler_body_clients user raises snapshot msg (room0 room : Room) out :
  (∀ ws, ws ∈ snapshot → raises ws = false) →
  websocket_handler_body user raises snapshot msg room0 = Some (room, out) →
  clients room = clients room0.
Proof.
  intros Hall.
  destruct msg as [[|data]| |]; simpl; try by intros [= <- _].
  destruct (py_get data "type") as [action|]; simpl; [|done].
  destruct (py_eq_str action "vote").
  { destruct (py_get data "value") as [value|]; simpl; [|done].
    rewrite broadcast_all_delivered by done. intros [= <- _].
    apply submit_vote_clients. }
  destruct (py_eq_str action "reveal").
  { rewrite broadcast_all_delivered by done. by intros [= <- _]. }
  destruct (py_eq_str action "reset").
  { rewrite broadcast_all_delivered by done. by intros [= <- _]. }
  by intros [= <- _].
Qed.

Lemma linked_write_room (self : PlanningPokerServer) l (room0 room : Room) :
  linked self → store self !! l = Some room0 →
  clients room = clients room0 →
  linked (write_room l room self).
Proof.
  intros [Hh Hm Hr Hi Hnr Hnw] Hroom0 Hcl. split; simpl.
  - intros w h H. destruct (Hh w h H) as (? & ? & r & Hr1 & Hr2).
    split_and!; [done|done|].
    destruct (decide (l = h_room h)) as [->|Hne].
    + exists room. rewrite lookup_insert_eq. split; [done|].
      rewrite Hcl. congruence.
    + exists r. by rewrite lookup_insert_ne.
  - intros l' r ws [[<- <-]|[Hne H]]%lookup_insert_Some Hws.
    + apply (Hm l room0 ws Hroom0). by rewrite <- Hcl.
    + by apply (Hm l' r ws).
  - intros rid l' H. destruct (Hr rid l' H) as (r & Hr1 & Hr2).
    destruct (decide (l = l')) as [->|Hne].
    + exists room. rewrite lookup_insert_eq. split; [done|].
      rewrite Hcl. congruence.
    + exists r. by rewrite lookup_insert_ne.
  - done.
  - intros l' [H|[_ H]]%lookup_insert_is_Some; [|by auto].
    subst l'. apply Hnr. by rewrite Hroom0.
  - done.
Qed.

Lemma linked_websocket_handler_finally (self : PlanningPokerServer) w (h : Handler) :
  linked self → handlers self !! w = Some h → linked (websocket_handler_finally h self).
Proof.
  intros [Hh Hm Hr Hi Hnr Hnw] Hhw.
  destruct (Hh w h Hhw) as (Hid & Hrid & room0 & Hroom0 & Hin).
  unfold websocket_handler_finally. rewrite Hroom0.
  (* another running handler of the same room keeps the room inhabited *)
  assert (∀ w' h', w' ≠ w → handlers self !! w' = Some h' →
                   h_ws h' ≠ h_ws h) as Hother.
  { intros w' h' Hne H' Heq. destruct (Hh w' h' H') as (Hid' & _).
    apply Hne. by rewrite <- Hid, <- Hid', Heq. }
  split; simpl.
  - intros w' h' [Hne H']%lookup_delete_Some. rewrite Hid in Hne.
    destruct (Hh w' h' H') as (Hid' & Hrid' & r & Hr1 & Hr2).
    assert (h_ws h' ≠ h_ws h) as Hws by by apply (Hother w').
    assert (h_room h' = h_room h → h_ws h' ∈ clients room0 ∖ {[h_ws h]}) as Hstay.
    { intros Heq. rewrite Heq, Hroom0 in Hr1. injection Hr1 as <-. set_solver. }
    split_and!; [done| |].
    + case_decide as Hempty; [|done].
      rewrite lookup_delete_ne; [done|]. intros Heq.
      rewrite <- Heq, Hrid in Hrid'. injection Hrid' as Hl.
      symmetry in Hl. specialize (Hstay Hl). set_solver.
    + destruct (decide (h_room h = h_room h')) as [Heq|Hne'].
      * eexists. rewrite Heq, lookup_insert_eq. split; [done|].
        simpl. by apply Hstay.
      * exists r. by rewrite lookup_insert_ne.
  - intros l' r ws [[<- <-]|[Hne H]]%lookup_insert_Some Hws.
    + simpl in Hws. apply elem_of_difference in Hws as [Hws Hnot].
      destruct (Hm _ _ _ Hroom0 Hws) as (h' & Hh' & Hw' & Hl').
      exists h'. split_and!; [|done|done].
      rewrite lookup_delete_ne; [done|]. intros Heq.
      rewrite <- Heq, Hid, Hhw in Hh'. injection Hh' as <-.
      apply Hnot. set_solver.
    + destruct (Hm _ _ _ H Hws) as (h' & Hh' & Hw' & Hl').
      exists h'. split_and!; [|done|done].
      rewrite lookup_delete_ne; [done|]. intros Heq.
      rewrite <- Heq, Hid, Hhw in Hh'. injection Hh' as <-. done.
  - intros rid l'. case_decide as Hempty.
    + intros [Hne H]%lookup_delete_Some.
      destruct (Hr rid l' H) as (r & Hr1 & Hr2).
      exists r. split; [|done]. rewrite lookup_insert_ne; [done|].
      intros <-. apply Hne. by apply (Hi _ _ (h_room h)).
    + intros H. destruct (Hr rid l' H) as (r & Hr1 & Hr2).
      destruct (decide (h_room h = l')) as [<-|Hne].
      * eexists. by rewrite lookup_insert_eq.
      * exists r. by rewrite lookup_insert_ne.
  - intros r1 r2 l'. case_decide.
    + intros [_ H1]%lookup_delete_Some [_ H2]%lookup_delete_Some. eauto.
    + eauto.
  - intros l' [H|[_ H]]%lookup_insert_is_Some; [|by auto].
    subst l'. apply Hnr. by rewrite Hroom0.
  - intros w' [h' [_ H]%lookup_delete_Some]. apply Hnw. by rewrite H.
Qed.

Lemma linked_websocket_handler_open (self : PlanningPokerServer) room_id user raises :
  linked self → linked (websocket_handler_open room_id user raises self).1.
Proof.
  intros Hc. unfold websocket_handler_open.
  destruct (py_not room_id || py_not user); [done|].
  set (rid := default "" room_id). set (u := default "" user).
  set (ws := {| ws_id := next_ws self; client_id := u |}).
  destruct Hc as [Hh Hm Hr Hi Hnr Hnw].
  assert (handlers self !! next_ws self = None) as Hfresh_ws.
  { destruct (handlers self !! next_ws self) eqn:E; [|done].
    assert (next_ws self < next_ws self) by (apply Hnw; by rewrite E). lia. }
  unfold setdefault. destruct (rooms self !! rid) as [l|] eqn:Hl.
  - destruct (Hr _ _ Hl) as (room0 & Hroom0 & Hne0). rewrite Hroom0. simpl.
    split; simpl.
    + intros w h [[<- <-]|[Hne H]]%lookup_insert_Some; simpl.
      * split_and!; [done|done|]. eexists. rewrite lookup_insert_eq.
        split; [done|]. simpl. set_solver.
      * destruct (Hh w h H) as (? & ? & r & Hr1 & Hr2).
        split_and!; [done|done|].
        destruct (decide (l = h_room h)) as [->|Hne'].
        -- eexists. rewrite lookup_insert_eq. split; [done|].
           simpl. rewrite Hroom0 in Hr1. injection Hr1 as <-. set_solver.
        -- exists r. by rewrite lookup_insert_ne.
    + intros l' r w [[<- <-]|[Hne H]]%lookup_insert_Some Hw.
      * simpl in Hw. apply elem_of_union in Hw as [->%elem_of_singleton|Hw].
        -- eexists. rewrite lookup_insert_eq. by split_and!.
        -- destruct (Hm _ _ _ Hroom0 Hw) as (h' & Hh' & Hw' & Hl').
           exists h'. split_and!; [|done|done].
           rewrite lookup_insert_ne; [done|]. simpl. intros Heq.
           rewrite <- Heq, Hfresh_ws in Hh'. done.
      * destruct (Hm _ _ _ H Hw) as (h' & Hh' & Hw' & Hl').
        exists h'. split_and!; [|done|done].
        rewrite lookup_insert_ne; [done|]. simpl. intros Heq.
        rewrite <- Heq, Hfresh_ws in Hh'. done.
    + intros rid' l' H. destruct (Hr rid' l' H) as (r & Hr1 & Hr2).
      destruct (decide (l = l')) as [<-|Hne].
      * eexists. rewrite lookup_insert_eq. split; [done|]. simpl. set_solver.
      * exists r. by rewrite lookup_insert_ne.
    + done.
    + intros l' [H|[_ H]]%lookup_insert_is_Some; [|by auto].
      subst l'. apply Hnr. by rewrite Hroom0.
    + intros w [H|[_ H]]%lookup_insert_is_Some; [simpl in H; subst w; lia|].
      specialize (Hnw w H). lia.
  - assert (store self !! next_room self = None) as Hfresh.
    { destruct (store self !! next_room self) eqn:E; [|done].
      assert (next_room self < next_room self) by (apply Hnr; by rewrite E). lia. }
    assert (∀ r, rooms self !! r ≠ Some (next_room self)) as Hunused.
    { intros r H. destruct (Hr _ _ H) as (? & E & _).
      by rewrite Hfresh in E. }
    simpl. rewrite lookup_insert_eq. split; simpl.
    + intros w h [[<- <-]|[Hne H]]%lookup_insert_Some; simpl.
      * split_and!; [done|by rewrite lookup_insert_eq|].
        eexists. rewrite lookup_insert_eq. split; [done|]. simpl. set_solver.
      * destruct (Hh w h H) as (? & Hrid & r & Hr1 & Hr2).
        assert (h_room h ≠ next_room self) as Hne'.
        { intros Heq. by rewrite Heq, Hfresh in Hr1. }
        split_and!; [done| |].
        -- rewrite lookup_insert_ne; [done|]. intros Heq.
           rewrite <- Heq in Hrid. congruence.
        -- exists r. by rewrite !lookup_insert_ne.
    + intros l' r w [[<- <-]|[Hne [[? _]|[_ H]]%lookup_insert_Some]]%lookup_insert_Some Hw;
        [|done|].
      * simpl in Hw. apply elem_of_union in Hw as [->%elem_of_singleton|Hw];
          [|set_solver].
        eexists. rewrite lookup_insert_eq. by split_and!.
      * destruct (Hm _ _ _ H Hw) as (h' & Hh' & Hw' & Hl').
        exists h'. split_and!; [|done|done].
        rewrite lookup_insert_ne; [done|]. simpl. intros Heq.
        rewrite <- Heq, Hfresh_ws in Hh'. done.
    + intros rid' l' [[_ <-]|[_ H]]%lookup_insert_Some.
      * eexists. rewrite lookup_insert_eq. split; [done|]. simpl. set_solver.
      * destruct (Hr rid' l' H) as (r & Hr1 & Hr2).
        exists r. split; [|done].
        rewrite !lookup_insert_ne; [done| |]; intros <-; by rewrite Hfresh in Hr1.
    + intros r1 r2 l' [[<- <-]|[Hn1 H1]]%lookup_insert_Some
                      [[<- E]|[Hn2 H2]]%lookup_insert_Some; try done.
      * by destruct (Hunused r2).
      * subst l'. by destruct (Hunused r1).
      * eauto.
    + intros l' [H|[_ [H|[_ H]]%lookup_insert_is_Some]]%lookup_insert_is_Some.
      * subst l'. lia.
      * subst l'. lia.
      * specialize (Hnr l' H). lia.
    + intros w [H|[_ H]]%lookup_insert_is_Some; [simpl in H; subst w; lia|].
      specialize (Hnw w H). lia.
Qed.

Lemma linked_step (self : PlanningPokerServer) e :
  linked self → all_delivered e → linked (step e self).1.
Proof.
  intros Hc Hall. destruct e as [rid u raises|w msg snapshot raises|w]; simpl.
  - by apply linked_websocket_handler_open.
  - destruct (handlers self !! w) as [h|] eqn:Hh; [|done].
    unfold websocket_handler_message.
    destruct (store self !! h_room h) as [room0|] eqn:Hroom0; [|done].
    destruct (websocket_handler_body (h_user h) raises snapshot msg room0)
      as [[room out]|] eqn:Hon; simpl.
    + apply (linked_write_room self _ room0); [done|done|].
      by apply (websocket_handler_body_clients _ _ _ _ _ _ _ Hall Hon).
    + by apply (linked_websocket_handler_finally self w).
  - destruct (handlers self !! w) as [h|] eqn:Hh; [|done].
    by apply (linked_websocket_handler_finally self w).
Qed.

(** X16: as long as every send of every broadcast succeeds, joins, frames of
    any kind and disconnects keep [self.rooms] exact: an identifier is there
    exactly while its room has a member. *)
Lemma registry_exact_while_delivering (self : PlanningPokerServer) :
  reachable_delivering self → registry_exact self.
Proof.
  intros H. apply linked_registry_exact.
  induction H as [|e self _ IH _ Hall]; [apply linked_init|].
  by apply linked_step.
Qed.

(** ** The scenarios of the specification *)

(** Alice joins R1, votes 5; Bob joins and reveals; Alice votes 8; Bob
    resets.  The frames, in the order in which they are sent when the set
    of members is iterated Alice first. *)
Example spec_scenarios :
  (run [ Open (Some "R1") (Some "alice") false;
         Frame 0 (vote_frame "5") [alice_ws] never;
         Open (Some "R1") (Some "bob") false;
         Frame 1 reveal_frame [alice_ws; bob_ws] never;
         Frame 0 (vote_frame "8") [alice_ws; bob_ws] never;
         Frame 1 reset_frame [alice_ws; bob_ws] never ] server_init).2
  = (let state votes revealed :=
       {| p_type := "state"; p_votes := votes; p_revealed := revealed |} in
     [ SendJson alice_ws (state ∅ false);
       SendJson alice_ws (state {[ "alice" := PStr "5" ]} false);
       SendJson bob_ws (state {[ "alice" := PStr "5" ]} false);
       SendJson alice_ws (state {[ "alice" := PStr "5" ]} true);
       SendJson bob_ws (state {[ "alice" := PStr "5" ]} true);
       SendJson alice_ws (state {[ "alice" := PStr "8" ]} false);
       SendJson bob_ws (state {[ "alice" := PStr "8" ]} false);
       SendJson alice_ws (state ∅ false);
       SendJson bob_ws (state ∅ false) ]).
Proof. by vm_compute. Qed.

(** * Further properties *)

(** ** [Room] *)

Lemma Room_eq (room1 room2 : Room) :
  clients room1 = clients room2 → votes room1 = votes room2 →
  revealed room1 = revealed room2 → room1 = room2.
Proof. destruct room1, room2; simpl; congruence. Qed.

(** X1: [remove_client] discards the websocket from the members and pops
    the one vote stored under its [client-id] header: the loop over the
    items of the votes amounts to that single pop.  The flag and the votes
    under every other name are kept. *)
Theorem remove_client_pops_own_vote (ws : WS) (room : Room) :
  remove_client ws room
  = {| clients := clients room ∖ {[ws]};
       votes := delete (client_id ws) (votes room);
       revealed := revealed room |} ∧
  (∀ u, u ≠ client_id ws →
        votes (remove_client ws room) !! u = votes room !! u) ∧
  (∀ w, w ≠ ws → w ∈ clients (remove_client ws room) ↔ w ∈ clients room).
Proof.
  split_and!.
  - apply Room_eq; [done|apply remove_client_votes|done].
  - intros u Hu. rewrite remove_client_votes. by apply lookup_delete_ne.
  - intros w Hw. rewrite remove_client_clients. set_solver.
Qed.

(** X2: [remove_client] on a websocket that is not a member and under whose
    name there is no vote changes nothing: [discard] and [pop] with a
    default do not raise on what is missing. *)
Theorem remove_client_unknown (ws : WS) (room : Room) :
  ws ∉ clients room → votes room !! client_id ws = None →
  remove_client ws room = room.
Proof.
  intros Hws Hv. apply Room_eq.
  - rewrite remove_client_clients. set_solver.
  - rewrite remove_client_votes. by apply delete_id.
  - done.
Qed.

Lemma remove_client_unknown_witness :
  (bob_ws ∉ clients room_a) ∧ votes room_a !! client_id bob_ws = None ∧
  remove_client bob_ws room_a = room_a.
Proof.
  assert (bob_ws ∉ clients room_a) as H1.
  { unfold room_a; simpl. intros H%elem_of_singleton. discriminate H. }
  assert (votes room_a !! client_id bob_ws = None) as H2 by reflexivity.
  split; [exact H1|]. split; [exact H2|].
  exact (remove_client_unknown bob_ws room_a H1 H2).
Defined.

(** X3: removing a client twice is removing it once, and two removals can
    be swapped. *)
Theorem remove_client_idempotent_commutes (ws1 ws2 : WS) (room : Room) :
  remove_client ws1 (remove_client ws1 room) = remove_client ws1 room ∧
  remove_client ws1 (remove_client ws2 room)
  = remove_client ws2 (remove_client ws1 room).
Proof.
  split; apply Room_eq; rewrite ?remove_client_clients, ?remove_client_votes;
    try done.
  - set_solver.
  - apply delete_delete_eq.
  - set_solver.
  - apply delete_delete.
Qed.



(** X5: a vote replaces the vote that the same user had, whatever the flag
    was in between, and touches neither the votes of the other users nor
    the members. *)
Theorem vote_overwrites (user : string) (v1 v2 : pyval) (room : Room) :
  submit_vote user v2 (submit_vote user v1 room) = submit_vote user v2 room ∧
  submit_vote user v2 (reveal (submit_vote user v1 room))
  = submit_vote user v2 room ∧
  (∀ u, u ≠ user →
        votes (submit_vote user v1 room) !! u = votes room !! u) ∧
  clients (submit_vote user v1 room) = clients room.
Proof.
  split_and!.
  - apply Room_eq; rewrite ?submit_vote_clients, ?submit_vote_votes,
      ?submit_vote_revealed; try done. apply insert_insert_eq.
  - apply Room_eq; rewrite ?submit_vote_clients, ?submit_vote_votes,
      ?submit_vote_revealed; simpl; rewrite ?submit_vote_clients,
      ?submit_vote_votes; try done. apply insert_insert_eq.
  - intros u Hu. rewrite submit_vote_votes. by apply lookup_insert_ne.
  - apply submit_vote_clients.
Qed.

(** ** Broadcast *)

Lemma served_cons_raises raises ws (snapshot : list WS) :
  raises ws = true → served raises (ws :: snapshot) = served raises snapshot.
Proof.
  intros H. unfold served. rewrite filter_cons_False; [done|].
  intros Hn. apply Hn. by apply Is_true_true.
Qed.

Lemma served_cons_sends raises ws (snapshot : list WS) :
  raises ws = false →
  served raises (ws :: snapshot) = ws :: served raises snapshot.
Proof.
  intros H. unfold served. rewrite filter_cons_True; [done|].
  by apply Is_true_false.
Qed.


(** X6: the room after a broadcast.  Its members are the members before,
    less those of the snapshot whose send raised; its votes are the votes
    before, less those under the names of these members; its flag is the
    flag before.  A broadcast adds no member and no vote. *)
Theorem broadcast_room_after (raises : WS → bool) (snapshot : list WS)
    (room : Room) :
  let room' := (broadcast_room_state raises snapshot room).1 in
  clients room' = clients room ∖ list_to_set (evicted raises snapshot) ∧
  (∀ u, votes room' !! u
        = if decide (u ∈ client_id <$> evicted raises snapshot)
          then None else votes room !! u) ∧
  revealed room' = revealed room ∧
  clients room' ⊆ clients room ∧
  votes room' ⊆ votes room.
Proof.
  intros room'. subst room'. unfold broadcast_room_state.
  rewrite broadcast_loop_room.
  assert (∀ u, votes (foldl (λ r w, remove_client w r) room
                        (evicted raises snapshot)) !! u
               = if decide (u ∈ client_id <$> evicted raises snapshot)
                 then None else votes room !! u) as Hv
    by (intros u; apply foldl_remove_client_votes).
  split_and!.
  - apply foldl_remove_client_clients.
  - done.
  - apply foldl_remove_client_revealed.
  - rewrite foldl_remove_client_clients. set_solver.
  - apply map_subseteq_spec. intros u v. rewrite Hv. by case_decide.
Qed.

(** The recipients of the frames of a pass, in order. *)
Lemma broadcast_loop_recipients raises shown (snapshot : list WS)
    (room : Room) :
  recipient <$> (broadcast_loop raises shown snapshot room).2
  = Some <$> served raises snapshot.
Proof.
  revert room. induction snapshot as [|ws rest IH]; intros room; [done|].
  cbn [broadcast_loop]. destruct (raises ws) eqn:Hr.
  - rewrite served_cons_raises by done. apply IH.
  - rewrite served_cons_sends by done. specialize (IH room).
    destruct (broadcast_loop raises shown rest room) as [room' out].
    cbn [snd] in *. rewrite !fmap_cons. by rewrite IH.
Qed.


(** X7: the frames of a broadcast.  The members of the snapshot whose send
    does not raise get one frame each, in the order of the snapshot, and
    nothing is written to anyone else; every output is a frame of type
    ["state"] that carries the flag of the room. *)
Theorem broadcast_recipients (raises : WS → bool) (snapshot : list WS)
    (room : Room) :
  let out := (broadcast_room_state raises snapshot room).2 in
  recipient <$> out = Some <$> served raises snapshot ∧
  (∀ o, o ∈ out →
        ∃ ws p, o = SendJson ws p ∧ p_type p = "state" ∧
                p_revealed p = revealed room).
Proof.
  intros out. subst out. unfold broadcast_room_state. split.
  - apply broadcast_loop_recipients.
  - intros o (ws & l & -> & _)%broadcast_loop_out. by eexists _, _.
Qed.



(** X9: the room that a broadcast leaves does not depend on the order in
    which the set of members is iterated (the frames do). *)
Theorem broadcast_room_any_order (raises : WS → bool) (s1 s2 : list WS)
    (room : Room) :
  s1 ≡ₚ s2 →
  (broadcast_room_state raises s1 room).1
  = (broadcast_room_state raises s2 room).1.
Proof.
  intros Hperm. unfold broadcast_room_state. rewrite !broadcast_loop_room.
  assert (∀ w, w ∈ evicted raises s1 ↔ w ∈ evicted raises s2) as Hmem.
  { intros w. rewrite !elem_of_evicted. by rewrite Hperm. }
  apply Room_eq.
  - rewrite !foldl_remove_client_clients. apply set_eq. intros w.
    rewrite !elem_of_difference, !elem_of_list_to_set. by rewrite Hmem.
  - apply map_eq. intros u. rewrite !foldl_remove_client_votes.
    destruct (decide (u ∈ client_id <$> evicted raises s1)) as [H1|H1];
      destruct (decide (u ∈ client_id <$> evicted raises s2)) as [H2|H2];
      try done; exfalso.
    + apply H2. apply list_elem_of_fmap in H1 as (w & -> & Hw).
      apply list_elem_of_fmap_2. by apply Hmem.
    + apply H1. apply list_elem_of_fmap in H2 as (w & -> & Hw).
      apply list_elem_of_fmap_2. by apply Hmem.
  - by rewrite !foldl_remove_client_revealed.
Qed.

Lemma broadcast_room_any_order_witness :
  [alice_ws; bob_ws; carol_ws] ≡ₚ [carol_ws; bob_ws; alice_ws] ∧
  (broadcast_room_state (only bob_ws) [alice_ws; bob_ws; carol_ws] room_abc).1
  = (broadcast_room_state (only bob_ws) [carol_ws; bob_ws; alice_ws]
       room_abc).1.
Proof.
  assert ([alice_ws; bob_ws; carol_ws] ≡ₚ [carol_ws; bob_ws; alice_ws]) as H.
  { apply (bool_decide_unpack _). vm_compute. exact I. }
  split; [exact H|].
  exact (broadcast_room_any_order (only bob_ws) _ _ room_abc H).
Defined.



(** ** The loop of the handler *)



(** X12: a vote frame that has no ["value"], or whose ["value"] is [null],
    is a vote all the same: [data.get] gives [None], which is stored under
    the user's name in place of the vote the user had, hides the room and
    is broadcast. *)
Theorem vote_without_value (user : string) (raises : WS → bool)
    (snapshot : list WS) (d : gmap string pyval) (room : Room) :
  d !! "type" = Some (PStr "vote") →
  d !! "value" = None ∨ d !! "value" = Some PNone →
  ∃ room' out,
    websocket_handler_body user raises snapshot (TEXT (Loaded (PDict d))) room
    = Some (room', out) ∧
    (room', out)
    = broadcast_room_state raises snapshot (submit_vote user PNone room) ∧
    votes (submit_vote user PNone room) !! user = Some PNone ∧
    revealed room' = false ∧
    (∀ ws p, SendJson ws p ∈ out → p_revealed p = false).
Proof.
  intros Htype Hvalue.
  assert (default PNone (d !! "value") = PNone) as Hdef
    by (by destruct Hvalue as [-> | ->]).
  destruct (broadcast_room_state raises snapshot (submit_vote user PNone room))
    as [room' out] eqn:Hb.
  exists room', out. split_and!.
  - simpl. rewrite Htype. simpl. by rewrite Hdef, Hb.
  - done.
  - rewrite submit_vote_votes. apply lookup_insert_eq.
  - replace room' with
      (broadcast_room_state raises snapshot (submit_vote user PNone room)).1
      by by rewrite Hb.
    rewrite broadcast_revealed. apply submit_vote_revealed.
  - intros ws p Hp.
    assert (SendJson ws p ∈ (broadcast_room_state raises snapshot
                               (submit_vote user PNone room)).2) as Hin
      by by rewrite Hb.
    apply broadcast_loop_out in Hin as (w & l & [= -> ->] & _). simpl.
    apply submit_vote_revealed.
Qed.

Lemma vote_without_value_witness :
  ({[ "type" := PStr "vote" ]} : gmap string pyval) !! "type"
  = Some (PStr "vote") ∧
  (({[ "type" := PStr "vote" ]} : gmap string pyval) !! "value" = None ∨
   ({[ "type" := PStr "vote" ]} : gmap string pyval) !! "value"
   = Some PNone) ∧
  ∃ room' out,
    websocket_handler_body "alice" never [alice_ws; bob_ws; carol_ws]
      (TEXT (Loaded (PDict {[ "type" := PStr "vote" ]}))) room_abc_revealed
    = Some (room', out) ∧ revealed room' = false.
Proof.
  assert (({[ "type" := PStr "vote" ]} : gmap string pyval) !! "type"
          = Some (PStr "vote")) as H1 by reflexivity.
  assert (({[ "type" := PStr "vote" ]} : gmap string pyval) !! "value" = None ∨
          ({[ "type" := PStr "vote" ]} : gmap string pyval) !! "value"
          = Some PNone) as H2 by (left; reflexivity).
  split; [exact H1|]. split; [exact H2|].
  destruct (vote_without_value "alice" never [alice_ws; bob_ws; carol_ws]
              {[ "type" := PStr "vote" ]} room_abc_revealed H1 H2)
    as (room' & out & Hbody & _ & _ & Hrev & _).
  exists room', out. exact (conj Hbody Hrev).
Defined.

(** ** The server *)

(** X14: the code that an event runs works on one [Room] object, the room
    of the request or of the handler; every other [Room] object is after
    the event what it was before. *)
Theorem event_touches_one_room (self : PlanningPokerServer) (e : event)
    (l : nat) :
  room_of_event self e ≠ Some l →
  store (step e self).1 !! l = store self !! l.
Proof.
  intros Hl. destruct e as [rid u raises|w msg snapshot raises|w]; simpl in *.
  - unfold websocket_handler_open.
    destruct (py_not rid || py_not u); [done|].
    unfold setdefault in *.
    destruct (rooms self !! default "" rid) as [l1|] eqn:Hrid; simpl in *.
    + destruct (store self !! l1); simpl; [|done].
      rewrite lookup_insert_ne; [done|congruence].
    + rewrite lookup_insert_eq. simpl.
      rewrite !lookup_insert_ne; [done|congruence|congruence].
  - destruct (handlers self !! w) as [h|]; simpl in *; [|done].
    unfold websocket_handler_message, websocket_handler_finally.
    destruct (store self !! h_room h); simpl; [|done].
    destruct (websocket_handler_body _ _ _ _ _) as [[room out]|]; simpl;
      rewrite lookup_insert_ne; congruence.
  - destruct (handlers self !! w) as [h|]; simpl in *; [|done].
    unfold websocket_handler_finally.
    destruct (store self !! h_room h); simpl; [|done].
    rewrite lookup_insert_ne; congruence.
Qed.

Lemma event_touches_one_room_witness :
  room_of_event (run two_in_room server_init).1
    (Open (Some "R2") (Some "carol") false) ≠ Some 0 ∧
  store (step (Open (Some "R2") (Some "carol") false)
           (run two_in_room server_init).1).1 !! 0
  = store (run two_in_room server_init).1 !! 0.
Proof.
  assert (room_of_event (run two_in_room server_init).1
            (Open (Some "R2") (Some "carol") false) ≠ Some 0) as H.
  { intros H. vm_compute in H. discriminate H. }
  split; [exact H|].
  exact (event_touches_one_room _ _ 0 H).
Defined.



(** ** Members and handlers *)

(** The loop of the handler adds no member. *)
Lemma websocket_handler_body_members user raises snapshot msg
    (room0 room : Room) out :
  websocket_handler_body user raises snapshot msg room0 = Some (room, out) →
  clients room ⊆ clients room0.
Proof.
  assert (∀ r, clients r = clients room0 →
               Some (broadcast_room_state raises snapshot r) = Some (room, out) →
               clients room ⊆ clients room0) as Hb.
  { intros r Hr [= Heq].
    replace room with (broadcast_room_state raises snapshot r).1
      by by rewrite Heq.
    unfold broadcast_room_state.
    rewrite broadcast_loop_room, foldl_remove_client_clients, Hr.
    set_solver. }
  destruct msg as [[|data]| |]; simpl; try by intros [= <- _].
  destruct (py_get data "type") as [action|]; simpl; [|done].
  destruct (py_eq_str action "vote").
  { destruct (py_get data "value") as [value|]; simpl; [|done].
    apply Hb. apply submit_vote_clients. }
  destruct (py_eq_str action "reveal"); [by apply Hb|].
  destruct (py_eq_str action "reset"); [by apply Hb|].
  by intros [= <- _].
Qed.

Lemma membership_init : membership server_init.
Proof.
  split; simpl; intros *; rewrite ?lookup_empty; try done; by intros [? ?].
Qed.

Lemma membership_websocket_handler_finally (self : PlanningPokerServer) w
    (h : Handler) :
  membership self → handlers self !! w = Some h →
  membership (websocket_handler_finally h self).
Proof.
  intros [Hh Hm Hnw] Hhw. pose proof (Hh w h Hhw) as Hid.
  unfold websocket_handler_finally.
  destruct (store self !! h_room h) as [room0|] eqn:Hroom0; [|by split].
  split; simpl.
  - intros w' h' [_ H']%lookup_delete_Some. by apply Hh.
  - intros l' r ws [[<- <-]|[Hne H]]%lookup_insert_Some Hws.
    + simpl in Hws. apply elem_of_difference in Hws as [Hws Hnot].
      destruct (Hm _ _ _ Hroom0 Hws) as (h' & Hh' & Hw' & Hl').
      exists h'. split_and!; [|done|done].
      rewrite lookup_delete_ne; [done|]. intros Heq.
      rewrite <- Heq, Hid, Hhw in Hh'. injection Hh' as <-.
      apply Hnot. set_solver.
    + destruct (Hm _ _ _ H Hws) as (h' & Hh' & Hw' & Hl').
      exists h'. split_and!; [|done|done].
      rewrite lookup_delete_ne; [done|]. intros Heq.
      rewrite <- Heq, Hid, Hhw in Hh'. injection Hh' as <-. done.
  - intros w' [h' [_ H]%lookup_delete_Some]. apply Hnw. by rewrite H.
Qed.

Lemma membership_step (self : PlanningPokerServer) e :
  membership self → membership (step e self).1.
Proof.
  intros Hc. destruct e as [rid u raises|w msg snapshot raises|w]; simpl.
  - unfold websocket_handler_open.
    destruct (py_not rid || py_not u); [done|].
    destruct Hc as [Hh Hm Hnw].
    assert (handlers self !! next_ws self = None) as Hfresh_ws.
    { destruct (handlers self !! next_ws self) eqn:E; [|done].
      assert (next_ws self < next_ws self) by (apply Hnw; by rewrite E). lia. }
    assert (∀ l room ws, store self !! l = Some room → ws ∈ clients room →
                         ws_id ws ≠ next_ws self) as Hold.
    { intros l room ws Hr Hws Heq.
      destruct (Hm _ _ _ Hr Hws) as (h' & Hh' & _).
      rewrite Heq, Hfresh_ws in Hh'. done. }
    unfold setdefault.
    destruct (rooms self !! default "" rid) as [l|] eqn:Hl; simpl.
    + destruct (store self !! l) as [room0|] eqn:Hroom0; [|by split].
      split; simpl.
      * intros w h [[<- <-]|[Hne H]]%lookup_insert_Some; [done|by apply Hh].
      * intros l' r w [[<- <-]|[Hne H]]%lookup_insert_Some Hw.
        -- simpl in Hw. apply elem_of_union in Hw as [->%elem_of_singleton|Hw].
           ++ eexists. rewrite lookup_insert_eq. by split_and!.
           ++ destruct (Hm _ _ _ Hroom0 Hw) as (h' & Hh' & Hw' & Hl').
              exists h'. split_and!; [|done|done].
              rewrite lookup_insert_ne; [done|]. simpl. intros Heq.
              by apply (Hold _ _ _ Hroom0 Hw).
        -- destruct (Hm _ _ _ H Hw) as (h' & Hh' & Hw' & Hl').
           exists h'. split_and!; [|done|done].
           rewrite lookup_insert_ne; [done|]. simpl. intros Heq.
           by apply (Hold _ _ _ H Hw).
      * intros w [H|[_ H]]%lookup_insert_is_Some; [simpl in H; subst w; lia|].
        specialize (Hnw w H). lia.
    + rewrite lookup_insert_eq. split; simpl.
      * intros w h [[<- <-]|[Hne H]]%lookup_insert_Some; [done|by apply Hh].
      * intros l' r w
          [[<- <-]|[Hne [[? _]|[_ H]]%lookup_insert_Some]]%lookup_insert_Some
          Hw; [|done|].
        -- simpl in Hw.
           apply elem_of_union in Hw as [->%elem_of_singleton|Hw];
             [|set_solver].
           eexists. rewrite lookup_insert_eq. by split_and!.
        -- destruct (Hm _ _ _ H Hw) as (h' & Hh' & Hw' & Hl').
           exists h'. split_and!; [|done|done].
           rewrite lookup_insert_ne; [done|]. simpl. intros Heq.
           by apply (Hold _ _ _ H Hw).
      * intros w [H|[_ H]]%lookup_insert_is_Some; [simpl in H; subst w; lia|].
        specialize (Hnw w H). lia.
  - destruct (handlers self !! w) as [h|] eqn:Hh; [|done].
    unfold websocket_handler_message.
    destruct (store self !! h_room h) as [room0|] eqn:Hroom0; [|done].
    destruct (websocket_handler_body (h_user h) raises snapshot msg room0)
      as [[room out]|] eqn:Hon; simpl.
    + pose proof (websocket_handler_body_members _ _ _ _ _ _ _ Hon) as Hsub.
      destruct Hc as [Hh' Hm Hnw]. split; simpl; [done| |done].
      intros l' r ws [[<- <-]|[Hne H]]%lookup_insert_Some Hws.
      * apply (Hm _ _ _ Hroom0). by apply Hsub.
      * by apply (Hm l' r).
    + by apply (membership_websocket_handler_finally self w).
  - destruct (handlers self !! w) as [h|] eqn:Hh; [|done].
    by apply (membership_websocket_handler_finally self w).
Qed.

(** X17: in every reachable state, whatever sends have raised, a member of
    a room is the websocket of a handler that is still running and that
    holds that very room; hence no websocket is a member of two rooms, and
    the websocket of a handler that has returned is a member of none. *)
Theorem members_have_running_handlers (self : PlanningPokerServer) :
  reachable self →
  (∀ l room ws, store self !! l = Some room → ws ∈ clients room →
     ∃ h, handlers self !! ws_id ws = Some h ∧ h_ws h = ws ∧ h_room h = l) ∧
  (∀ l1 l2 room1 room2 ws,
     store self !! l1 = Some room1 → store self !! l2 = Some room2 →
     ws ∈ clients room1 → ws ∈ clients room2 → l1 = l2) ∧
  (∀ l room ws, store self !! l = Some room →
     handlers self !! ws_id ws = None → ws ∉ clients room).
Proof.
  intros Hreach.
  assert (membership self) as [Hh Hm Hnw].
  { induction Hreach as [|e self _ IH _]; [apply membership_init|].
    by apply membership_step. }
  split_and!.
  - done.
  - intros l1 l2 room1 room2 ws H1 H2 Hw1 Hw2.
    destruct (Hm _ _ _ H1 Hw1) as (h1 & Hh1 & _ & <-).
    destruct (Hm _ _ _ H2 Hw2) as (h2 & Hh2 & _ & <-).
    congruence.
  - intros l room ws Hr Hnone Hws.
    destruct (Hm _ _ _ Hr Hws) as (h & Hh' & _). congruence.
Qed.

Lemma members_have_running_handlers_witness :
  reachable (run late_finally server_init).1 ∧
  ∀ l room ws, store (run late_finally server_init).1 !! l = Some room →
               handlers (run late_finally server_init).1 !! ws_id ws = None →
               ws ∉ clients room.
Proof.
  assert (reachable (run late_finally server_init).1) as H
    by (apply reachable_run; [apply reachable_init|apply late_finally_enabled]).
  split; [exact H|].
  exact (proj2 (proj2 (members_have_running_handlers _ H))).
Defined.

(** ** Joining and leaving *)

(** X18: the life of a room.  A request for an identifier that
    [self.rooms] does not have puts it there; when the stream of that
    connection then ends, nothing is sent, and [self.rooms] and the running
    handlers are again what they were before the request. *)
Theorem join_then_leave (self : PlanningPokerServer) (room_id user : string)
    (raises : bool) :
  reachable self → room_id ≠ "" → user ≠ "" →
  rooms self !! room_id = None →
  let self1 := (step (Open (Some room_id) (Some user) raises) self).1 in
  rooms self1 !! room_id = Some (next_room self) ∧
  (step (Close (next_ws self)) self1).2 = [] ∧
  rooms (step (Close (next_ws self)) self1).1 = rooms self ∧
  handlers (step (Close (next_ws self)) self1).1 = handlers self.
Proof.
  intros Hreach Hrid Huser Hnone self1.
  apply reachable_consistent in Hreach as [_ _ _ Hnw].
  assert (handlers self !! next_ws self = None) as Hfresh_ws.
  { destruct (handlers self !! next_ws self) eqn:E; [|done].
    assert (next_ws self < next_ws self) by (apply Hnw; by rewrite E). lia. }
  assert (self1 = (step (Open (Some room_id) (Some user) raises) self).1)
    as Hself1 by done.
  clearbody self1. simpl in Hself1. unfold websocket_handler_open in Hself1.
  rewrite !py_not_nonempty in Hself1 by done. simpl in Hself1.
  unfold setdefault in Hself1. rewrite Hnone in Hself1. simpl in Hself1.
  rewrite lookup_insert_eq in Hself1. simpl in Hself1. subst self1.
  simpl. rewrite !lookup_insert_eq. simpl.
  unfold websocket_handler_finally. simpl. rewrite lookup_insert_eq. simpl.
  rewrite decide_True by set_solver. simpl.
  split_and!; [done|done| |].
  - rewrite delete_insert_eq. by apply delete_id.
  - rewrite delete_insert_eq. by apply delete_id.
Qed.

Lemma join_then_leave_witness :
  reachable (run two_in_room server_init).1 ∧ "R2" ≠ "" ∧ "carol" ≠ "" ∧
  rooms (run two_in_room server_init).1 !! "R2" = None ∧
  rooms (step (Close (next_ws (run two_in_room server_init).1))
           (step (Open (Some "R2") (Some "carol") false)
              (run two_in_room server_init).1).1).1
  = rooms (run two_in_room server_init).1.
Proof.
  assert (reachable (run two_in_room server_init).1) as H0
    by (apply reachable_run; [apply reachable_init|apply two_in_room_enabled]).
  assert ("R2" ≠ "") as H1 by discriminate.
  assert ("carol" ≠ "") as H2 by discriminate.
  assert (rooms (run two_in_room server_init).1 !! "R2" = None) as H3
    by (vm_compute; reflexivity).
  split_and!; [exact H0|exact H1|exact H2|exact H3|].
  exact (proj1 (proj2 (proj2 (join_then_leave _ "R2" "carol" false
                                H0 H1 H2 H3)))).
Defined.

Lemma alice_twice_enabled : run_enabled alice_twice server_init.
Proof. solve_run_enabled. Qed.

(** X19: votes are kept by name, not by connection.  When two connections
    of a room bear the same user name and one of them votes, the end of the
    stream of the other pops that vote, while the handler of the voter goes
    on running. *)
Theorem same_name_leave_erases_vote (self : PlanningPokerServer)
    (w1 w2 : nat) (h1 h2 : Handler) (d : gmap string pyval)
    (snapshot : list WS) (raises : WS → bool) :
  reachable self →
  handlers self !! w1 = Some h1 → handlers self !! w2 = Some h2 →
  w1 ≠ w2 → h_user h1 = h_user h2 → h_room h1 = h_room h2 →
  d !! "type" = Some (PStr "vote") →
  let self1 :=
    (step (Frame w1 (TEXT (Loaded (PDict d))) snapshot raises) self).1 in
  let self2 := (step (Close w2) self1).1 in
  handlers self2 !! w1 = Some h1 ∧
  ∃ room, store self2 !! h_room h1 = Some room ∧
          votes room !! h_user h1 = None.
Proof.
  intros Hreach Hh1 Hh2 Hne Huser Hroom Htype self1 self2.
  destruct (reachable_consistent _ Hreach) as [_ Hhs _ _].
  destruct (Hhs _ _ Hh1) as (_ & _ & [room0 Hroom0]).
  destruct (Hhs _ _ Hh2) as (Hid2 & Hcid2 & _).
  assert (handlers self1 = handlers self ∧
          ∃ room1, store self1 !! h_room h1 = Some room1) as [Hhand [room1 Hroom1]].
  { subst self1. simpl. rewrite Hh1. unfold websocket_handler_message.
    rewrite Hroom0. simpl. rewrite Htype. simpl.
    destruct (broadcast_room_state _ _ _) as [room1 out]. simpl.
    split; [done|]. exists room1. apply lookup_insert_eq. }
  subst self2. simpl. rewrite Hhand, Hh2.
  unfold websocket_handler_finally. rewrite <- Hroom, Hroom1. simpl.
  split.
  - rewrite Hhand, Hid2. by rewrite lookup_delete_ne.
  - eexists. rewrite lookup_insert_eq. split; [done|].
    rewrite remove_client_votes, Hcid2, Huser. apply lookup_delete_eq.
Qed.

Lemma same_name_leave_erases_vote_witness :
  reachable (run alice_twice server_init).1 ∧
  handlers (step (Close 1)
              (step (Frame 0 (vote_frame "5") [alice_ws; alice_ws'] never)
                 (run alice_twice server_init).1).1).1 !! 0
  = Some {| h_room_id := "R1"; h_user := "alice"; h_ws := alice_ws;
            h_room := 0 |} ∧
  ∃ room,
    store (step (Close 1)
             (step (Frame 0 (vote_frame "5") [alice_ws; alice_ws'] never)
                (run alice_twice server_init).1).1).1 !! 0 = Some room ∧
    votes room !! "alice" = None.
Proof.
  assert (reachable (run alice_twice server_init).1) as H0
    by (apply reachable_run; [apply reachable_init|apply alice_twice_enabled]).
  split; [exact H0|].
  assert (({[ "type" := PStr "vote"; "value" := PStr "5" ]}
             : gmap string pyval) !! "type" = Some (PStr "vote")) as Ht
    by reflexivity.
  exact (same_name_leave_erases_vote (run alice_twice server_init).1 0 1
           {| h_room_id := "R1"; h_user := "alice"; h_ws := alice_ws;
              h_room := 0 |}
           {| h_room_id := "R1"; h_user := "alice"; h_ws := alice_ws';
              h_room := 0 |}
           {[ "type" := PStr "vote"; "value" := PStr "5" ]}
           [alice_ws; alice_ws'] never
           H0 eq_refl eq_refl ltac:(discriminate) eq_refl eq_refl Ht).
Defined.

(** ** Witnesses of the frames passed over and of the exact registry *)


Lemma registry_exact_while_delivering_witness :
  reachable_delivering
    (step (Open (Some "R1") (Some "alice") false) server_init).1 ∧
  registry_exact (step (Open (Some "R1") (Some "alice") false) server_init).1.
Proof.
  assert (reachable_delivering
            (step (Open (Some "R1") (Some "alice") false) server_init).1) as H
    by exact (delivering_step (Open (Some "R1") (Some "alice") false)
                server_init delivering_init I I).
  split; [exact H|].
  exact (registry_exact_while_delivering _ H).
Defined.

(** ** Where votes come from *)

Lemma websocket_handler_body_vote_origin (u user : string) raises snapshot msg
    (room0 room : Room) out v :
  (is_vote msg = true → user ≠ u) →
  websocket_handler_body user raises snapshot msg room0 = Some (room, out) →
  votes room !! u = Some v → votes room0 !! u = Some v.
Proof.
  intros Hvote.
  assert (∀ r, (votes r !! u = Some v → votes room0 !! u = Some v) →
               Some (broadcast_room_state raises snapshot r) = Some (room, out) →
               votes room !! u = Some v → votes room0 !! u = Some v) as Hb.
  { intros r Hr [= Heq].
    replace room with (broadcast_room_state raises snapshot r).1
      by by rewrite Heq.
    unfold broadcast_room_state.
    rewrite broadcast_loop_room, foldl_remove_client_votes.
    by case_decide. }
  destruct msg as [[|data]| |]; simpl; try by intros [= <- _].
  destruct (py_get data "type") as [action|] eqn:Ha; simpl; [|done].
  simpl in Hvote. rewrite Ha in Hvote.
  destruct (py_eq_str action "vote").
  { destruct (py_get data "value") as [value|]; simpl; [|done].
    apply Hb. rewrite submit_vote_votes, lookup_insert_ne; [done|by apply Hvote]. }
  destruct (py_eq_str action "reveal"); [by apply Hb|].
  destruct (py_eq_str action "reset"); [by apply Hb|].
  by intros [= <- _].
Qed.

(** X20: the only code that puts a vote under a name into a room is the
    vote of a handler of that room that bears the name.  After any other
    event (a join, a reveal, a reset, a vote under another name or in
    another room, the end of a stream, a broadcast that removes members)
    a vote that the room holds under the name was there before, with the
    same value. *)
Theorem vote_only_from_own_frame (self : PlanningPokerServer) (e : event)
    (u : string) (l : nat) (room' : Room) (v : pyval) :
  ¬ votes_as u l self e →
  store (step e self).1 !! l = Some room' →
  votes room' !! u = Some v →
  ∃ room, store self !! l = Some room ∧ votes room !! u = Some v.
Proof.
  intros Hnot. destruct e as [rid user raises|w msg snapshot raises|w]; simpl.
  - unfold websocket_handler_open.
    destruct (py_not rid || py_not user); simpl; [by eauto|].
    unfold setdefault.
    destruct (rooms self !! default "" rid) as [l1|] eqn:Hrid; simpl.
    + destruct (store self !! l1) as [room0|] eqn:Hroom0; simpl; [|by eauto].
      intros [[<- <-]|[_ H]]%lookup_insert_Some Hv; by eauto.
    + rewrite lookup_insert_eq. simpl.
      intros [[<- <-]|[_ [[_ <-]|[_ H]]%lookup_insert_Some]]%lookup_insert_Some
        Hv; try done. by eauto.
  - destruct (handlers self !! w) as [h|] eqn:Hh; simpl; [|by eauto].
    unfold websocket_handler_message.
    destruct (store self !! h_room h) as [room0|] eqn:Hroom0; simpl;
      [|by eauto].
    destruct (websocket_handler_body (h_user h) raises snapshot msg room0)
      as [[room out]|] eqn:Hon; simpl.
    + intros [[<- <-]|[_ H]]%lookup_insert_Some Hv; [|by eauto].
      exists room0. split; [done|].
      apply (websocket_handler_body_vote_origin u _ _ _ _ _ _ _ v) in Hon;
        [done| |done].
      intros Hv' Hu. apply Hnot. simpl. by exists h.
    + unfold websocket_handler_finally. rewrite Hroom0. simpl.
      intros [[<- <-]|[_ H]]%lookup_insert_Some Hv; [|by eauto].
      exists room0. split; [done|].
      rewrite remove_client_votes in Hv.
      by apply lookup_delete_Some in Hv as [_ Hv].
  - destruct (handlers self !! w) as [h|] eqn:Hh; simpl; [|by eauto].
    unfold websocket_handler_finally.
    destruct (store self !! h_room h) as [room0|] eqn:Hroom0; simpl;
      [|by eauto].
    intros [[<- <-]|[_ H]]%lookup_insert_Some Hv; [|by eauto].
    exists room0. split; [done|].
    rewrite remove_client_votes in Hv.
    by apply lookup_delete_Some in Hv as [_ Hv].
Qed.

Lemma vote_only_from_own_frame_witness :
  ¬ votes_as "alice" 0 (run two_in_room server_init).1
      (Frame 1 reveal_frame [alice_ws; bob_ws] never) ∧
  store (step (Frame 1 reveal_frame [alice_ws; bob_ws] never)
           (run two_in_room server_init).1).1 !! 0
  = Some {| clients := {[ alice_ws; bob_ws ]};
            votes := {[ "alice" := PStr "5" ]};
            revealed := true |} ∧
  ∃ room, store (run two_in_room server_init).1 !! 0 = Some room ∧
          votes room !! "alice" = Some (PStr "5").
Proof.
  assert (¬ votes_as "alice" 0 (run two_in_room server_init).1
            (Frame 1 reveal_frame [alice_ws; bob_ws] never)) as H1.
  { intros (h & _ & _ & _ & Hvote). vm_compute in Hvote. discriminate Hvote. }
  assert (store (step (Frame 1 reveal_frame [alice_ws; bob_ws] never)
                   (run two_in_room server_init).1).1 !! 0
          = Some {| clients := {[ alice_ws; bob_ws ]};
                    votes := {[ "alice" := PStr "5" ]};
                    revealed := true |}) as H2 by (vm_compute; reflexivity).
  split; [exact H1|]. split; [exact H2|].
  exact (vote_only_from_own_frame _ _ "alice" 0 _ (PStr "5") H1 H2 eq_refl).
Defined.
